(** * Universal Website Scraper: the adaptive extraction engine of main.py

    A shallow embedding of [ScraperEngine] (main.py) and the properties of
    its strategy heuristic, interaction protocol and section pipeline.

    Python's [str] is modelled as [string], one [ascii] per code point
    below 256.  The libraries the engine calls (selectolax, urllib, httpx,
    playwright, the clock) are interfaces, given as type classes; the
    engine's own methods are translated from main.py and are parametric in
    them.  Concrete instances of the interfaces are given further down and
    serve the closed examples. *)

From Stdlib Require Import String Ascii List Arith Bool Lia.
From Stdlib Require Import Decimal DecimalNat DecimalString.
Import ListNotations.
Open Scope string_scope.
Open Scope list_scope.

Set Implicit Arguments.
Set Warnings "-abstract-large-number,-register-all".

(** ** Python's string methods used by main.py *)

Module PyStr.

(** [c.isspace()] on code points below 256. *)
Definition isspace (c : ascii) : bool :=
  let n := nat_of_ascii c in
  (((9 <=? n) && (n <=? 13)) || ((28 <=? n) && (n <=? 32))
  || (n =? 133) || (n =? 160))%nat.

Definition is_upper (c : ascii) : bool :=
  let n := nat_of_ascii c in ((65 <=? n) && (n <=? 90))%nat.

Definition is_lower (c : ascii) : bool :=
  let n := nat_of_ascii c in ((97 <=? n) && (n <=? 122))%nat.

Definition to_lower (c : ascii) : ascii :=
  if is_upper c then ascii_of_nat (nat_of_ascii c + 32) else c.

Definition to_upper (c : ascii) : ascii :=
  if is_lower c then ascii_of_nat (nat_of_ascii c - 32) else c.

(** [s.lower()], on the ASCII letters; the other code points are left as
    they are, which no test for an ASCII keyword can tell. *)
Fixpoint lower (s : string) : string :=
  match s with
  | EmptyString => EmptyString
  | String c r => String (to_lower c) (lower r)
  end.

(** [s.title()]: a letter that follows a non-letter is upper-cased, every
    other letter lower-cased. *)
Fixpoint title_from (after_letter : bool) (s : string) : string :=
  match s with
  | EmptyString => EmptyString
  | String c r =>
      if is_upper c || is_lower c
      then String (if after_letter then to_lower c else to_upper c)
                  (title_from true r)
      else String c (title_from false r)
  end.

Definition title (s : string) : string := title_from false s.

Fixpoint lstrip (s : string) : string :=
  match s with
  | EmptyString => EmptyString
  | String c r => if isspace c then lstrip r else s
  end.

Fixpoint rstrip (s : string) : string :=
  match s with
  | EmptyString => EmptyString
  | String c r =>
      let r' := rstrip r in
      if isspace c && (r' =? "") then "" else String c r'
  end.

(** [s.strip()] *)
Definition strip (s : string) : string := rstrip (lstrip s).

(** [s.split()]: the maximal runs of non-whitespace, in order. *)
Fixpoint split_from (cur : string) (s : string) : list string :=
  match s with
  | EmptyString => if cur =? "" then [] else [cur]
  | String c r =>
      if isspace c
      then (if cur =? "" then split_from "" r else cur :: split_from "" r)
      else split_from (cur ++ String c "")%string r
  end.

Definition split (s : string) : list string := split_from "" s.

(** [sep.join(parts)] *)
Fixpoint join (sep : string) (parts : list string) : string :=
  match parts with
  | [] => ""
  | [p] => p
  | p :: rest => (p ++ sep ++ join sep rest)%string
  end.

(** [needle in hay] *)
Fixpoint contains (needle hay : string) : bool :=
  prefix needle hay ||
  match hay with
  | EmptyString => false
  | String _ r => contains needle r
  end.

(** [s[:n]] *)
Fixpoint take (n : nat) (s : string) : string :=
  match n, s with
  | S k, String c r => String c (take k r)
  | _, _ => EmptyString
  end.

(** The text before and after the first occurrence of [c], if any. *)
Fixpoint cut (c : ascii) (s : string) : option (string * string) :=
  match s with
  | EmptyString => None
  | String c' r =>
      if Ascii.eqb c c' then Some ("", r)
      else match cut c r with
           | Some (a, b) => Some (String c' a, b)
           | None => None
           end
  end.

Fixpoint split_on (c : ascii) (s : string) (fuel : nat) : list string :=
  match fuel with
  | 0 => [s]
  | S fuel' =>
      match cut c s with
      | Some (a, b) => a :: split_on c b fuel'
      | None => [s]
      end
  end.

(** The text before and after the last occurrence of [c], if any. *)
Fixpoint rcut (c : ascii) (s : string) : option (string * string) :=
  match s with
  | EmptyString => None
  | String c' r =>
      match rcut c r with
      | Some (a, b) => Some (String c' a, b)
      | None => if Ascii.eqb c c' then Some ("", r) else None
      end
  end.

(** [s[n:]] *)
Fixpoint drop (n : nat) (s : string) : string :=
  match n, s with
  | S k, String _ r => drop k r
  | _, _ => s
  end.

(** The text before and after the first occurrence of [sep], if any. *)
Fixpoint cut_str (sep s : string) : option (string * string) :=
  if prefix sep s then Some ("", drop (String.length sep) s)
  else match s with
       | EmptyString => None
       | String c r =>
           match cut_str sep r with
           | Some (a, b) => Some (String c a, b)
           | None => None
           end
       end.

(** [str(n)] for a non-negative [int]. *)
Definition of_nat (n : nat) : string :=
  NilEmpty.string_of_uint (Nat.to_uint n).

(** Python's truth value of a [str]. *)
Definition truthy (s : string) : bool := negb (s =? "").

(** [any(p(x) for x in l)] *)
Definition any {A} (p : A -> bool) (l : list A) : bool := existsb p l.

End PyStr.

Import PyStr.

(** The character [chr(34)], for string constants that hold a quote. *)
Definition dquote : string := String (ascii_of_nat 34) EmptyString.

(** ** The pydantic models *)

Module LinkItem.
Record t := mk { text : string; href : string }.
End LinkItem.

Module ImageItem.
Record t := mk { src : string; alt : string }.
End ImageItem.

Module SectionContent.
Record t := mk {
  headings : list string;
  text : string;
  links : list LinkItem.t;
  images : list ImageItem.t;
  lists : list (list string);
  tables : list (list (list string))
}.
End SectionContent.

(** [class Section(BaseModel)] *)
Module PageSection.
Record t := mk {
  id : string;
  type : string;
  label : string;
  sourceUrl : string;
  content : SectionContent.t;
  rawHtml : string;
  truncated : bool
}.
End PageSection.

Module Meta.
Record t := mk {
  title : string;
  description : string;
  language : string;
  canonical : option string
}.
End Meta.

Module Interactions.
Record t := mk {
  clicks : list string;
  scrolls : nat;
  pages : list string
}.
End Interactions.

Module Error.
Record t := mk { message : string; phase : string }.
End Error.

Module ScrapeResult.
Record t := mk {
  url : string;
  scrapedAt : string;
  meta : Meta.t;
  sections : list PageSection.t;
  interactions : Interactions.t;
  errors : list Error.t
}.
End ScrapeResult.


(** ** The libraries, as interfaces *)

(** selectolax: a parsed document and its elements are [Node]s.
    [text_strip n] is [n.text(strip=True)], [attributes_get n k d] is
    [n.attributes.get(k, d)] with attribute values taken to be strings,
    [html n] is [n.html]. *)
Class DomQuery := {
  Node : Type;
  HTMLParser : string -> Node;
  css : Node -> string -> list Node;
  text_strip : Node -> string;
  attributes_get : Node -> string -> string -> string;
  html : Node -> string
}.

(** [n.css_first(sel)]: the first match, [None] without one. *)
Definition css_first `{DomQuery} (n : Node) (sel : string) : option Node :=
  hd_error (css n sel).

(** urllib.parse *)
Class Urllib := {
  urljoin : string -> string -> string
}.

(** ** SectionExtractor and SectionClassifier *)

Section Extraction.

Context `{DQ : DomQuery} `{UL : Urllib}.

Definition _determine_section_type
  (tag_name : string) (headings : list string) (text : string) : string :=
  if tag_name =? "header" then "hero"
  else if tag_name =? "nav" then "nav"
  else if tag_name =? "footer" then "footer"
  else
    let text_lower := lower text in
    if any (fun word => contains word text_lower)
           ["pricing"; "price"; "$"; "plan"] then "pricing"
    else if any (fun word => contains word text_lower)
                ["faq"; "question"; "answer"] then "faq"
    else if contains "grid" text_lower || contains "gallery" text_lower
    then "grid"
    else "section".

Definition _generate_label
  (headings : list string) (text : string) (section_type : string) : string :=
  match headings with
  | h0 :: _ => h0
  | [] =>
      let words := firstn 7 (split text) in
      match words with
      | _ :: _ =>
          let label := join " " words in
          if (7 <? length (split text))%nat then (label ++ "...")%string
          else label
      | [] => title section_type
      end
  end.

Definition _create_empty_section (source_url : string) : PageSection.t :=
  PageSection.mk "section-0" "unknown" "Content" source_url
    (SectionContent.mk [] "" [] [] [] []) "" false.

Definition extract_headings (elem : Node) : list string :=
  fold_left
    (fun headings h =>
       let heading_text := text_strip h in
       if truthy heading_text then headings ++ [heading_text] else headings)
    (css elem "h1, h2, h3, h4, h5, h6") [].

Definition extract_links (elem : Node) (source_url : string)
  : list LinkItem.t :=
  fold_left
    (fun links a =>
       let link_text := text_strip a in
       let href := attributes_get a "href" "" in
       if truthy href
       then let absolute_href := urljoin source_url href in
            links ++ [LinkItem.mk link_text absolute_href]
       else links)
    (css elem "a") [].

(** [x or y] on strings *)
Definition str_or (x y : string) : string := if truthy x then x else y.

Definition extract_images (elem : Node) (source_url : string)
  : list ImageItem.t :=
  fold_left
    (fun images img =>
       let src := str_or (attributes_get img "src" "")
                         (attributes_get img "data-src" "") in
       let alt := attributes_get img "alt" "" in
       if truthy src
       then let absolute_src := urljoin source_url src in
            images ++ [ImageItem.mk absolute_src alt]
       else images)
    (css elem "img") [].

Definition extract_lists (elem : Node) : list (list string) :=
  fold_left
    (fun lists ul =>
       let list_items := map text_strip (css ul "li") in
       match list_items with
       | _ :: _ => lists ++ [list_items]
       | [] => lists
       end)
    (css elem "ul, ol") [].

Definition extract_tables (elem : Node) : list (list (list string)) :=
  fold_left
    (fun tables table =>
       let table_data :=
         fold_left
           (fun table_data row =>
              let row_data := map text_strip (css row "td, th") in
              match row_data with
              | _ :: _ => table_data ++ [row_data]
              | [] => table_data
              end)
           (css table "tr") [] in
       match table_data with
       | _ :: _ => tables ++ [table_data]
       | [] => tables
       end)
    (css elem "table") [].

Definition _parse_section
  (elem : Node) (section_id : nat) (tag_name : string) (source_url : string)
  : PageSection.t :=
  let headings := extract_headings elem in
  let text := text_strip elem in
  let links := extract_links elem source_url in
  let images := extract_images elem source_url in
  let lists := extract_lists elem in
  let tables := extract_tables elem in
  let section_type := _determine_section_type tag_name headings text in
  let label := _generate_label headings text section_type in
  let raw_html := html elem in
  let '(raw_html, truncated) :=
    if (1000 <? String.length raw_html)%nat
    then ((take 1000 raw_html ++ "...")%string, true)
    else (raw_html, false) in
  PageSection.mk (section_type ++ "-" ++ of_nat section_id)%string
    section_type label source_url
    (SectionContent.mk headings text links images lists tables)
    raw_html truncated.

Definition semantic_selectors : list string :=
  ["header"; "nav"; "main"; "section"; "article"; "aside"; "footer"].

(** The body of the inner loop of the first tier. *)
Definition semantic_step (selector source_url : string)
  (st : list PageSection.t * nat) (elem : Node) : list PageSection.t * nat :=
  let '(sections, section_id) := st in
  let section := _parse_section elem section_id selector source_url in
  if truthy (strip (SectionContent.text (PageSection.content section)))
  then (sections ++ [section], S section_id)
  else (sections, section_id).

(** The body of the loop of the second tier. *)
Definition div_step (source_url : string)
  (st : list PageSection.t * nat) (elem : Node) : list PageSection.t * nat :=
  let '(sections, section_id) := st in
  let section := _parse_section elem section_id "section" source_url in
  if (50 <? String.length
             (SectionContent.text (PageSection.content section)))%nat
  then (sections ++ [section], S section_id)
  else (sections, section_id).

Definition semantic_tier (parser : Node) (source_url : string)
  : list PageSection.t * nat :=
  fold_left
    (fun st selector =>
       fold_left (semantic_step selector source_url) (css parser selector) st)
    semantic_selectors ([], 0).

Definition div_tier (parser : Node) (source_url : string)
  (st : list PageSection.t * nat) : list PageSection.t * nat :=
  match fst st with
  | [] => fold_left (div_step source_url)
            (firstn 10 (css parser "body > div")) st
  | _ :: _ => st
  end.

Definition body_tier (parser : Node) (source_url : string)
  (sections : list PageSection.t) : list PageSection.t :=
  match sections with
  | [] =>
      match css_first parser "body" with
      | Some body => sections ++ [_parse_section body 0 "section" source_url]
      | None => sections
      end
  | _ :: _ => sections
  end.

Definition _extract_sections (parser : Node) (source_url : string)
  : list PageSection.t :=
  let st := semantic_tier parser source_url in
  let st := div_tier parser source_url st in
  let sections := body_tier parser source_url (fst st) in
  match sections with
  | [] => [_create_empty_section source_url]
  | _ :: _ => sections
  end.

Definition _extract_meta (parser : Node) : Meta.t :=
  let title :=
    match css_first parser "title" with
    | Some title_elem => text_strip title_elem
    | None =>
        match css_first parser ("meta[property=" ++ dquote ++ "og:title" ++ dquote ++ "]")%string with
        | Some og_title => attributes_get og_title "content" ""
        | None => ""
        end
    end in
  let description :=
    match css_first parser ("meta[name=" ++ dquote ++ "description" ++ dquote ++ "]")%string with
    | Some desc_elem => attributes_get desc_elem "content" ""
    | None =>
        match css_first parser ("meta[property=" ++ dquote ++ "og:description" ++ dquote ++ "]")%string with
        | Some og_desc => attributes_get og_desc "content" ""
        | None => ""
        end
    end in
  let language :=
    match css_first parser "html" with
    | Some html_elem => attributes_get html_elem "lang" "en"
    | None => "en"
    end in
  let canonical :=
    match css_first parser ("link[rel=" ++ dquote ++ "canonical" ++ dquote ++ "]")%string with
    | Some canon_elem => Some (attributes_get canon_elem "href" "")
    | None => None
    end in
  Meta.mk title description language canonical.

(** ** RenderingNeedHeuristic *)

Definition indicators : list string :=
  [("id=" ++ dquote ++ "root" ++ dquote)%string;
   ("id=" ++ dquote ++ "__next" ++ dquote)%string;
   ("id=" ++ dquote ++ "app" ++ dquote)%string;
   "data-reactroot"; "ng-app"].

(** The [for selector in [...]] loop with its early [return True]. *)
Fixpoint empty_container (parser : Node) (selectors : list string) : bool :=
  match selectors with
  | [] => false
  | selector :: rest =>
      match css_first parser selector with
      | Some elem =>
          if (String.length (text_strip elem) <? 100)%nat then true
          else empty_container parser rest
      | None => empty_container parser rest
      end
  end.

Definition _needs_js_rendering (parser : Node) : bool :=
  match css_first parser "body" with
  | None => true
  | Some body =>
      let text_content := text_strip body in
      if (String.length text_content <? 200)%nat then true
      else
        let html_str := html parser in
        if any (fun ind => contains ind html_str) indicators
        then (if empty_container parser ["#root"; "#__next"; "#app"]
              then true else false)
        else false
  end.

End Extraction.

(** ** Exceptions, and state passing with them *)

(** The two exception classes main.py tells apart; both are subclasses of
    [Exception].  The payload is [str(e)]. *)
Inductive exn : Type :=
| PlaywrightTimeout (msg : string)
| Exception (msg : string).

Definition str (e : exn) : string :=
  match e with
  | PlaywrightTimeout msg => msg
  | Exception msg => msg
  end.

Inductive outcome (A : Type) : Type :=
| Return (a : A)
| Raise (e : exn).

Arguments Return {A} a.
Arguments Raise {A} e.

(** A computation over the mutable state [S]: what happened, and the state
    it left.  A raised exception keeps the mutations made before it. *)
Definition M (S A : Type) : Type := S -> outcome A * S.

Definition ret {S A} (a : A) : M S A := fun s => (Return a, s).

Definition raise {S A} (e : exn) : M S A := fun s => (Raise e, s).

Definition bind {S A B} (m : M S A) (k : A -> M S B) : M S B :=
  fun s =>
    match m s with
    | (Return a, s') => k a s'
    | (Raise e, s') => (Raise e, s')
    end.

Definition get {S} : M S S := fun s => (Return s, s).

Definition modify {S} (f : S -> S) : M S unit := fun s => (Return tt, f s).

(** [try: m  except ... as e: handler(e)] *)
Definition try_except {S A} (m : M S A) (handler : exn -> M S A) : M S A :=
  fun s =>
    match m s with
    | (Return a, s') => (Return a, s')
    | (Raise e, s') => handler e s'
    end.

Declare Scope monad_scope.
Delimit Scope monad_scope with monad.

Notation "x <- c1 ;; c2" := (bind c1 (fun x => c2))
  (at level 61, c1 at next level, right associativity) : monad_scope.
Notation "c1 ;; c2" := (bind c1 (fun _ => c2))
  (at level 61, right associativity) : monad_scope.

Open Scope monad_scope.

(** [try: m  except: pass] *)
Definition try_pass {S} (m : M S unit) : M S unit :=
  try_except m (fun _ => ret tt).

(** [for x in l: body(x)] *)
Fixpoint for_each {S A} (l : list A) (body : A -> M S unit) : M S unit :=
  match l with
  | [] => ret tt
  | x :: rest => body x ;; for_each rest body
  end.

(** [for x in l: body(x)] where the body may [break]: it returns [true]
    when it did. *)
Fixpoint for_break {S A} (l : list A) (body : A -> M S bool) : M S unit :=
  match l with
  | [] => ret tt
  | x :: rest =>
      stop <- body x ;;
      if (stop : bool) then ret tt else for_break rest body
  end.

(** [range(n)] *)
Definition range (n : nat) : list nat := seq 0 n.

(** ** The engine's state *)

Record ScraperEngine : Type := mkEngine {
  url : string;
  visited_pages : list string;
  clicks_performed : list string;
  scroll_count : nat;
  errors : list Error.t;
  strategy : string
}.

Definition __init__ (url : string) : ScraperEngine :=
  mkEngine url [url] [] 0 [] "static".

Definition errors_append (e : Error.t) (self : ScraperEngine)
  : ScraperEngine :=
  mkEngine (url self) (visited_pages self) (clicks_performed self)
    (scroll_count self) (errors self ++ [e]) (strategy self).

Definition clicks_performed_append (c : string) (self : ScraperEngine)
  : ScraperEngine :=
  mkEngine (url self) (visited_pages self) (clicks_performed self ++ [c])
    (scroll_count self) (errors self) (strategy self).

Definition visited_pages_append (u : string) (self : ScraperEngine)
  : ScraperEngine :=
  mkEngine (url self) (visited_pages self ++ [u]) (clicks_performed self)
    (scroll_count self) (errors self) (strategy self).

Definition scroll_count_incr (self : ScraperEngine) : ScraperEngine :=
  mkEngine (url self) (visited_pages self) (clicks_performed self)
    (scroll_count self + 1) (errors self) (strategy self).

Definition set_strategy (v : string) (self : ScraperEngine) : ScraperEngine :=
  mkEngine (url self) (visited_pages self) (clicks_performed self)
    (scroll_count self) (errors self) v.

(** ** The remaining libraries *)

(** httpx: the [try] block of [_fetch_static] as one call, the response
    text or the exception of the client, of [get] or of
    [raise_for_status]. *)
Class Httpx := {
  client_get : string -> outcome string
}.

(** [datetime.now(timezone.utc).isoformat()] *)
Class Clock := {
  now_isoformat : string
}.

(** playwright: [Page] is the state of the browser session, which every
    call may change and any call but [page.url] may leave with an
    exception.  [launch] stands for [async_playwright()],
    [chromium.launch], [new_context] and [new_page]. *)
Class Playwright := {
  Page : Type;
  ElementHandle : Type;
  launch : outcome Page;
  goto : string -> nat -> Page -> outcome unit * Page;
  wait_for_timeout : nat -> Page -> outcome unit * Page;
  wait_for_load_state : string -> nat -> Page -> outcome unit * Page;
  evaluate : string -> Page -> outcome unit * Page;
  query_selector : string -> Page -> outcome (option ElementHandle) * Page;
  query_selector_all : string -> Page -> outcome (list ElementHandle) * Page;
  click : ElementHandle -> nat -> Page -> outcome unit * Page;
  page_url : Page -> string;
  content : Page -> outcome string * Page;
  browser_close : Page -> outcome unit * Page
}.

(** ** InteractionSimulator *)

Section Interaction.

Context `{PW : Playwright}.

(** What the interaction methods work on: the engine, the page, and the
    two locals of [_perform_scroll_pagination], which keep the values
    assigned before an exception that the same [try] block raises later. *)
Record Render : Type := mkRender {
  self : ScraperEngine;
  page : Page;
  current_url : string;
  pagination_attempted : bool
}.

(** A call on the page *)
Definition on_page {A} (op : Page -> outcome A * Page) : M Render A :=
  fun r =>
    let '(o, p) := op (page r) in
    (o, mkRender (self r) p (current_url r) (pagination_attempted r)).

(** A mutation of the engine *)
Definition on_self (f : ScraperEngine -> ScraperEngine) : M Render unit :=
  modify (fun r =>
    mkRender (f (self r)) (page r) (current_url r) (pagination_attempted r)).

Definition set_current_url (v : string) : M Render unit :=
  modify (fun r => mkRender (self r) (page r) v (pagination_attempted r)).

Definition set_pagination_attempted (v : bool) : M Render unit :=
  modify (fun r => mkRender (self r) (page r) (current_url r) v).

Definition quoted (s : string) : string := (dquote ++ s ++ dquote)%string.

Definition noise_selectors : list string :=
  [("[id*=" ++ quoted "cookie" ++ "]")%string;
   ("[class*=" ++ quoted "cookie" ++ "]")%string;
   ("[id*=" ++ quoted "banner" ++ "]")%string;
   ("[class*=" ++ quoted "banner" ++ "]")%string;
   ("[id*=" ++ quoted "modal" ++ "]")%string;
   ("[class*=" ++ quoted "modal" ++ "]")%string;
   ("[id*=" ++ quoted "popup" ++ "]")%string;
   ("[class*=" ++ quoted "popup" ++ "]")%string;
   ("[role=" ++ quoted "dialog" ++ "]")%string;
   ".newsletter-popup";
   "#onetrust-banner-sdk"].

(** The script of [_remove_noise], up to the blanks around it. *)
Definition remove_script (selector : string) : string :=
  ("document.querySelectorAll(" ++ quoted selector
   ++ ").forEach(el => el.remove());")%string.

Definition _remove_noise : M Render unit :=
  for_each noise_selectors (fun selector =>
    try_pass (on_page (evaluate (remove_script selector)))).

Definition tab_selectors : list string :=
  [("[role=" ++ quoted "tab" ++ "]")%string;
   "button[aria-controls]";
   ".tab";
   "[data-tab]"].

Definition load_more_selectors : list string :=
  [("button:has-text(" ++ quoted "Load more" ++ ")")%string;
   ("button:has-text(" ++ quoted "Show more" ++ ")")%string;
   ("button:has-text(" ++ quoted "See more" ++ ")")%string;
   ("[class*=" ++ quoted "load-more" ++ "]")%string;
   ("[class*=" ++ quoted "show-more" ++ "]")%string].

(** [for i, tab in enumerate(tabs[:3])], from index [i] on *)
Fixpoint click_tabs (selector : string) (i : nat) (tabs : list ElementHandle)
  : M Render unit :=
  match tabs with
  | [] => ret tt
  | tab :: rest =>
      try_pass (
        on_page (click tab 2000) ;;
        on_page (wait_for_timeout 1000) ;;
        on_self (clicks_performed_append
                   (selector ++ "[" ++ of_nat i ++ "]")%string)) ;;
      click_tabs selector (S i) rest
  end.

(** The tab loop of [_perform_clicks] *)
Definition click_tab_controls : M Render unit :=
  for_break tab_selectors (fun selector =>
    try_except (
      tabs <- on_page (query_selector_all selector) ;;
      if negb (length tabs =? 0)%nat && (1 <? length tabs)%nat
      then click_tabs selector 0 (firstn 3 tabs) ;; ret true
      else ret false)
    (fun _ => ret false)).

(** The body of [for attempt in range(3)] in the load-more loop; [true]
    is its [break]. *)
Definition load_more_attempt (selector : string) (attempt : nat)
  : M Render bool :=
  button <- on_page (query_selector selector) ;;
  match button with
  | Some b =>
      on_page (click b 2000) ;;
      on_page (wait_for_timeout 1500) ;;
      on_self (clicks_performed_append selector) ;;
      ret false
  | None => ret true
  end.

(** [for attempt in range(3)], for one pattern *)
Definition load_more_attempts (selector : string) : M Render unit :=
  for_break (range 3) (load_more_attempt selector).

(** The load-more loop of [_perform_clicks] *)
Definition click_load_more : M Render unit :=
  for_each load_more_selectors (fun selector =>
    try_pass (load_more_attempts selector)).

Definition _perform_clicks : M Render unit :=
  click_tab_controls ;;
  click_load_more.

Definition next_selectors : list string :=
  [("a:has-text(" ++ quoted "Next" ++ ")")%string;
   ("a:has-text(" ++ quoted "next" ++ ")")%string;
   ("[rel=" ++ quoted "next" ++ "]")%string;
   ".pagination a:last-child";
   ("a[aria-label*=" ++ quoted "next" ++ " i]")%string].

(** [x in l] on a list of strings *)
Definition str_in (x : string) (l : list string) : bool :=
  existsb (String.eqb x) l.

(** The [try] block of the pagination loop, for one selector; [true] is
    its [break]. *)
Definition try_next_link (selector : string) : M Render bool :=
  next_link <- on_page (query_selector selector) ;;
  match next_link with
  | Some l =>
      on_page (click l 3000) ;;
      on_page (wait_for_load_state "networkidle" 5000) ;;
      r <- get ;;
      let new_url := page_url (page r) in
      (if negb (new_url =? current_url r)
          && negb (str_in new_url (visited_pages (self r)))
       then
         on_self (visited_pages_append new_url) ;;
         set_current_url new_url ;;
         set_pagination_attempted true ;;
         on_page (wait_for_timeout 1000)
       else ret tt) ;;
      ret true
  | None => ret false
  end.

Definition scroll_to_bottom : M Render unit :=
  for_each (range 3) (fun i =>
    try_pass (
      on_page (evaluate "window.scrollTo(0, document.body.scrollHeight)") ;;
      on_page (wait_for_timeout 2000) ;;
      on_self scroll_count_incr)).

Definition _perform_scroll_pagination : M Render unit :=
  r <- get ;;
  set_current_url (page_url (page r)) ;;
  set_pagination_attempted false ;;
  for_break (range 3) (fun depth =>
    for_break next_selectors (fun selector =>
      try_except (try_next_link selector) (fun _ => ret false)) ;;
    r <- get ;;
    ret (negb (pagination_attempted r))) ;;
  r <- get ;;
  if negb (pagination_attempted r)
     || (length (visited_pages (self r)) <? 3)%nat
  then scroll_to_bottom
  else ret tt.

(** The [try] block of [_fetch_with_playwright] *)
Definition render_try : M Render string :=
  r <- get ;;
  on_page (goto (url (self r)) 30000) ;;
  on_page (wait_for_timeout 2000) ;;
  _remove_noise ;;
  _perform_clicks ;;
  _perform_scroll_pagination ;;
  html_content <- on_page content ;;
  on_page browser_close ;;
  ret html_content.

(** Its two [except] clauses *)
Definition render_except (e : exn) : M Render string :=
  match e with
  | PlaywrightTimeout _ =>
      on_self (errors_append
                 (Error.mk ("Timeout: " ++ str e)%string "render")) ;;
      html_content <- on_page content ;;
      on_page browser_close ;;
      ret html_content
  | Exception _ =>
      on_self (errors_append (Error.mk (str e) "render")) ;;
      on_page browser_close ;;
      raise e
  end.

Definition _fetch_with_playwright : M ScraperEngine string :=
  fun self0 =>
    match launch with
    | Raise e => (Raise e, self0)
    | Return p =>
        let '(o, r) :=
          try_except render_try render_except
            (mkRender self0 p (page_url p) false) in
        (o, self r)
    end.

End Interaction.

(** ** ScrapeOrchestrator *)

Section Orchestrator.

Context `{DQ : DomQuery} `{UL : Urllib} `{HX : Httpx} `{CK : Clock}
        `{PW : Playwright}.

Definition _fetch_static : M ScraperEngine string :=
  try_except
    (self <- get ;; fun s => (client_get (url self), s))
    (fun e =>
       modify (errors_append (Error.mk (str e) "fetch")) ;;
       raise e).

Definition build_interactions (self : ScraperEngine) : Interactions.t :=
  Interactions.mk (clicks_performed self) (scroll_count self)
    (visited_pages self).

(** The [try] block of [scrape] *)
Definition scrape_try : M ScraperEngine ScrapeResult.t :=
  html_content <- _fetch_static ;;
  let parser := HTMLParser html_content in
  parser <-
    (if _needs_js_rendering parser
     then
       modify (set_strategy "js") ;;
       modify (errors_append
                 (Error.mk "Static content insufficient, using JS rendering"
                    "detection")) ;;
       html_content <- _fetch_with_playwright ;;
       ret (HTMLParser html_content)
     else ret parser) ;;
  let meta := _extract_meta parser in
  self <- get ;;
  let sections := _extract_sections parser (url self) in
  ret (ScrapeResult.mk (url self) now_isoformat meta sections
         (build_interactions self) (errors self)).

(** The partial result of its [except] clause *)
Definition partial_result (self : ScraperEngine) : ScrapeResult.t :=
  ScrapeResult.mk (url self) now_isoformat (Meta.mk "" "" "en" None) []
    (build_interactions self) (errors self).

(** [scrape] returns for every outcome of its [try] block. *)
Definition scrape (self : ScraperEngine) : ScrapeResult.t * ScraperEngine :=
  match scrape_try self with
  | (Return result, self') => (result, self')
  | (Raise e, self') =>
      let self'' := errors_append (Error.mk (str e) "scrape") self' in
      (partial_result self'', self'')
  end.

End Orchestrator.

(** ** A document tree that answers the selectors of main.py

    An instance of [DomQuery] for the closed examples: elements with
    attributes and children, text leaves, a query engine for the selector
    shapes main.py uses (tag, [#id], [tag[attr="v"]], the child combinator
    and comma-separated groups) and a parser for well-nested markup. *)

Module TreeDom.

Inductive node : Type :=
| Text (s : string)
| Element (tag : string) (attrs : list (string * string))
          (children : list node).

Fixpoint lookup (k : string) (l : list (string * string)) : option string :=
  match l with
  | [] => None
  | (k', v) :: rest => if k =? k' then Some v else lookup k rest
  end.

Definition attributes_get (n : node) (k default : string) : string :=
  match n with
  | Text _ => default
  | Element _ attrs _ =>
      match lookup k attrs with
      | Some v => v
      | None => default
      end
  end.

(** [n.text(strip=True)]: every text leaf stripped, joined without a
    separator, in document order. *)
Fixpoint text_strip (n : node) : string :=
  match n with
  | Text s => strip s
  | Element _ _ children =>
      (fix go (l : list node) : string :=
         match l with
         | [] => ""
         | c :: rest => (text_strip c ++ go rest)%string
         end) children
  end.

Fixpoint html_attrs (attrs : list (string * string)) : string :=
  match attrs with
  | [] => ""
  | (k, v) :: rest =>
      (" " ++ k ++ "=" ++ dquote ++ v ++ dquote ++ html_attrs rest)%string
  end.

Definition void_tags : list string :=
  ["img"; "meta"; "link"; "br"; "hr"; "input"].

Definition is_void (tag : string) : bool := existsb (String.eqb tag) void_tags.

(** [n.html]: the markup of the subtree. *)
Fixpoint html (n : node) : string :=
  match n with
  | Text s => s
  | Element tag attrs children =>
      if is_void tag then ("<" ++ tag ++ html_attrs attrs ++ ">")%string
      else
        ("<" ++ tag ++ html_attrs attrs ++ ">"
         ++ (fix go (l : list node) : string :=
               match l with
               | [] => ""
               | c :: rest => (html c ++ go rest)%string
               end) children
         ++ "</" ++ tag ++ ">")%string
  end.

(** *** Selectors *)

Inductive simple : Type :=
| Tag (tag : string)
| Id (id : string)
| AttrEq (tag attr value : string).

Definition unquote (s : string) : string :=
  match cut (ascii_of_nat 34) s with
  | Some (_, r) =>
      match cut (ascii_of_nat 34) r with
      | Some (v, _) => v
      | None => r
      end
  | None => s
  end.

Definition parse_simple (s : string) : simple :=
  let s := strip s in
  match s with
  | String "#" r => Id r
  | _ =>
      match cut "[" s with
      | Some (tag, r) =>
          match cut "=" r with
          | Some (attr, v) => AttrEq tag attr (unquote v)
          | None => Tag s
          end
      | None => Tag s
      end
  end.

(** A selector: a group of chains [s1 > s2 > ... > sn], each chain kept
    with [sn] first. *)
Definition parse_selector (sel : string) : list (list simple) :=
  map (fun chain =>
         List.rev (map parse_simple (split_on ">" chain (String.length chain))))
      (split_on "," sel (String.length sel)).

Definition matches_simple (s : simple) (n : node) : bool :=
  match n with
  | Text _ => false
  | Element tag attrs _ =>
      match s with
      | Tag t => tag =? t
      | Id i => match lookup "id" attrs with
                | Some v => v =? i
                | None => false
                end
      | AttrEq t a v =>
          (tag =? t) && match lookup a attrs with
                        | Some v' => v' =? v
                        | None => false
                        end
      end
  end.

(** [ancestors] holds the parent first. *)
Fixpoint matches_chain (chain : list simple) (n : node)
  (ancestors : list node) : bool :=
  match chain with
  | [] => true
  | s :: up =>
      matches_simple s n &&
      match up, ancestors with
      | [], _ => true
      | _ :: _, parent :: above => matches_chain up parent above
      | _ :: _, [] => false
      end
  end.

Definition matches (sel : list (list simple)) (n : node)
  (ancestors : list node) : bool :=
  existsb (fun chain => matches_chain chain n ancestors) sel.

(** The matches in the subtree of [n], [n] included, in document order. *)
Fixpoint select (sel : list (list simple)) (ancestors : list node) (n : node)
  : list node :=
  match n with
  | Text _ => []
  | Element _ _ children =>
      (if matches sel n ancestors then [n] else []) ++
      (fix go (l : list node) : list node :=
         match l with
         | [] => []
         | c :: rest => select sel (n :: ancestors) c ++ go rest
         end) children
  end.

Definition css (n : node) (sel : string) : list node :=
  select (parse_selector sel) [] n.

(** *** Parsing well-nested markup *)

Inductive token : Type :=
| TOpen (tag : string) (attrs : list (string * string))
| TClose (tag : string)
| TText (s : string).

(** The attributes of a start tag: [name="value"] pairs and bare names. *)
Fixpoint parse_attrs (s : string) (fuel : nat) : list (string * string) :=
  match fuel with
  | 0 => []
  | S fuel' =>
      let s := lstrip s in
      match s with
      | EmptyString => []
      | _ =>
          match cut "=" s with
          | Some (name, r) =>
              match cut (ascii_of_nat 34) r with
              | Some (_, r') =>
                  match cut (ascii_of_nat 34) r' with
                  | Some (v, rest) =>
                      (strip name, v) :: parse_attrs rest fuel'
                  | None => [(strip name, r')]
                  end
              | None => [(strip name, r)]
              end
          | None => [(strip s, "")]
          end
      end
  end.

Definition tag_token (inside : string) : token :=
  match inside with
  | String "/" name => TClose (strip name)
  | _ =>
      match cut " " inside with
      | Some (name, r) => TOpen name (parse_attrs r (String.length r))
      | None => TOpen inside []
      end
  end.

Definition text_token (acc : string) : list token :=
  if acc =? "" then [] else [TText acc].

Fixpoint lex (in_tag : bool) (acc s : string) : list token :=
  match s with
  | EmptyString => if in_tag then [] else text_token acc
  | String c r =>
      if in_tag
      then (if Ascii.eqb c ">" then tag_token acc :: lex false "" r
            else lex true (acc ++ String c "")%string r)
      else (if Ascii.eqb c "<" then text_token acc ++ lex true "" r
            else lex false (acc ++ String c "")%string r)
  end.

(** An open element: its tag, attributes and the children read so far,
    last first. *)
Definition frame : Type := (string * list (string * string) * list node)%type.

Definition add_child (c : node) (stack : list frame) (top : list node)
  : list frame * list node :=
  match stack with
  | (t, a, cs) :: below => ((t, a, c :: cs) :: below, top)
  | [] => ([], c :: top)
  end.

(** The end of the input closes every element still open. *)
Fixpoint close_all (done : node) (stack : list frame) (top : list node)
  : list node :=
  match stack with
  | [] => List.rev (done :: top)
  | (t, a, cs) :: below =>
      close_all (Element t a (List.rev (done :: cs))) below top
  end.

Fixpoint build (toks : list token) (stack : list frame) (top : list node)
  : list node :=
  match toks with
  | [] =>
      match stack with
      | [] => List.rev top
      | (t, a, cs) :: below => close_all (Element t a (List.rev cs)) below top
      end
  | TText s :: rest =>
      let '(stack', top') := add_child (Text s) stack top in
      build rest stack' top'
  | TOpen t a :: rest =>
      if is_void t
      then let '(stack', top') := add_child (Element t a []) stack top in
           build rest stack' top'
      else build rest ((t, a, []) :: stack) top
  | TClose _ :: rest =>
      match stack with
      | (t, a, cs) :: below =>
          let '(stack', top') :=
            add_child (Element t a (List.rev cs)) below top in
          build rest stack' top'
      | [] => build rest stack top
      end
  end.

(** [HTMLParser(markup)]: the [html] element, made around the content when
    the markup has none. *)
Definition HTMLParser (markup : string) : node :=
  match build (lex false "" markup) [] [] with
  | [Element "html" a cs] => Element "html" a cs
  | forest => Element "html" [] [Element "head" [] []; Element "body" [] forest]
  end.

End TreeDom.

#[export] Instance TreeDomQuery : DomQuery := {
  Node := TreeDom.node;
  HTMLParser := TreeDom.HTMLParser;
  css := TreeDom.css;
  text_strip := TreeDom.text_strip;
  attributes_get := TreeDom.attributes_get;
  html := TreeDom.html
}.

(** ** A resolver in the shape of [urllib.parse.urljoin]

    An instance of [Urllib] for the closed examples.  The two guards that
    open CPython's [urljoin] ([if not base: return url] and
    [if not url: return base]) are as there; the resolution that follows
    is cut down to references with a scheme of their own, network-path,
    absolute-path and relative-path references, without the removal of
    dot segments. *)

Module UrlModel.

Definition is_scheme_char (c : ascii) : bool :=
  let n := nat_of_ascii c in
  is_upper c || is_lower c || ((48 <=? n) && (n <=? 57))%nat
  || (n =? 43)%nat || (n =? 45)%nat || (n =? 46)%nat.

Fixpoint all_chars (p : ascii -> bool) (s : string) : bool :=
  match s with
  | EmptyString => true
  | String c r => p c && all_chars p r
  end.

Definition has_scheme (u : string) : bool :=
  match cut ":" u with
  | Some (String c r, _) =>
      (is_upper c || is_lower c) && all_chars is_scheme_char r
  | _ => false
  end.

(** The scheme and authority of [base], and its path without query and
    fragment. *)
Definition split_origin (base : string) : string * string :=
  let base := match cut "#" base with Some (a, _) => a | None => base end in
  let base := match cut "?" base with Some (a, _) => a | None => base end in
  match cut_str "://" base with
  | Some (scheme, rest) =>
      match cut "/" rest with
      | Some (host, path) =>
          ((scheme ++ "://" ++ host)%string, String "/" path)
      | None => ((scheme ++ "://" ++ rest)%string, "")
      end
  | None => ("", base)
  end.

Definition urljoin (base url : string) : string :=
  if negb (truthy base) then url
  else if negb (truthy url) then base
  else if has_scheme url then url
  else
    let '(origin, bpath) := split_origin base in
    if prefix "//" url
    then match cut ":" origin with
         | Some (scheme, _) => (scheme ++ ":" ++ url)%string
         | None => url
         end
    else if prefix "/" url then (origin ++ url)%string
    else match rcut "/" bpath with
         | Some (dir, _) => (origin ++ dir ++ "/" ++ url)%string
         | None =>
             if truthy origin then (origin ++ "/" ++ url)%string else url
         end.

End UrlModel.

#[export] Instance UrlModelJoin : Urllib := {
  urljoin := UrlModel.urljoin
}.

(** ** A scripted browser session

    An instance of [Playwright] for the closed examples.  A page knows how
    many elements each selector matches; a click on an element of a
    vanishing selector removes it, a click on a link selector moves to its
    next target, a click on a failing selector times out. *)

Module SimBrowser.

Record page : Type := mkPage {
  sim_url : string;
  sim_content : string;
  sim_matches : list (string * nat);
  sim_vanishing : list string;
  sim_links : list (string * list string);
  sim_failing : list string
}.

Definition handle : Type := (string * nat)%type.

Fixpoint count_of (sel : string) (l : list (string * nat)) : nat :=
  match l with
  | [] => 0
  | (k, n) :: rest => if sel =? k then n else count_of sel rest
  end.

Fixpoint decrement (sel : string) (l : list (string * nat))
  : list (string * nat) :=
  match l with
  | [] => []
  | (k, n) :: rest =>
      if sel =? k then (k, pred n) :: rest else (k, n) :: decrement sel rest
  end.

(** The target a click on [sel] leads to, and the links left after it. *)
Fixpoint follow (sel : string) (l : list (string * list string))
  : option string * list (string * list string) :=
  match l with
  | [] => (None, [])
  | (k, targets) :: rest =>
      if sel =? k
      then match targets with
           | t :: later => (Some t, (k, later) :: rest)
           | [] => (None, l)
           end
      else let '(t, rest') := follow sel rest in (t, (k, targets) :: rest')
  end.

Definition query_selector (sel : string) (p : page)
  : outcome (option handle) * page :=
  (Return (if (0 <? count_of sel (sim_matches p))%nat
           then Some (sel, 0) else None), p).

Definition query_selector_all (sel : string) (p : page)
  : outcome (list handle) * page :=
  (Return (map (fun i => (sel, i)) (seq 0 (count_of sel (sim_matches p)))),
   p).

Definition click (h : handle) (timeout : nat) (p : page)
  : outcome unit * page :=
  let sel := fst h in
  if str_in sel (sim_failing p)
  then (Raise (PlaywrightTimeout "Timeout exceeded."), p)
  else
    let matches' :=
      if str_in sel (sim_vanishing p)
      then decrement sel (sim_matches p) else sim_matches p in
    let '(target, links') := follow sel (sim_links p) in
    let url' := match target with Some t => t | None => sim_url p end in
    (Return tt,
     mkPage url' (sim_content p) matches' (sim_vanishing p) links'
       (sim_failing p)).

Definition goto (u : string) (timeout : nat) (p : page)
  : outcome unit * page :=
  (Return tt,
   mkPage u (sim_content p) (sim_matches p) (sim_vanishing p) (sim_links p)
     (sim_failing p)).

Definition idle (p : page) : outcome unit * page := (Return tt, p).

Definition content (p : page) : outcome string * page :=
  (Return (sim_content p), p).

End SimBrowser.

(** The session that [launch] opens on the page [start]. *)
Definition SimPlaywright (start : outcome SimBrowser.page) : Playwright := {|
  Page := SimBrowser.page;
  ElementHandle := SimBrowser.handle;
  launch := start;
  goto := SimBrowser.goto;
  wait_for_timeout := fun _ => SimBrowser.idle;
  wait_for_load_state := fun _ _ => SimBrowser.idle;
  evaluate := fun _ => SimBrowser.idle;
  query_selector := SimBrowser.query_selector;
  query_selector_all := SimBrowser.query_selector_all;
  click := SimBrowser.click;
  page_url := SimBrowser.sim_url;
  content := SimBrowser.content;
  browser_close := SimBrowser.idle
|}.

(** An HTTP client that answers every request with [response]. *)
Definition FixedHttpx (response : outcome string) : Httpx := {|
  client_get := fun _ => response
|}.

(** A clock stopped at [t]. *)
Definition FixedClock (t : string) : Clock := {|
  now_isoformat := t
|}.

(** ** Definitions on the side of the specification and of the proofs *)

Section SpecSide.

Context `{DQ : DomQuery} `{UL : Urllib}.

(** The fingerprints and the root containers as the specification of
    RenderingNeedHeuristic lists them. *)
Definition spa_fingerprints : list string :=
  [("id=" ++ dquote ++ "root" ++ dquote)%string;
   ("id=" ++ dquote ++ "__next" ++ dquote)%string;
   ("id=" ++ dquote ++ "app" ++ dquote)%string;
   "data-reactroot";
   "ng-app"].

Definition root_containers : list string := ["#root"; "#__next"; "#app"].

(** The decision rule of RenderingNeedHeuristic in the words of the
    specification: no body, or a body with fewer than 200 characters of
    stripped text, or a fingerprint in the markup together with a root
    container that holds fewer than 100 characters of stripped text. *)
Definition needs_rendering_rule (parser : Node) : Prop :=
  css_first parser "body" = None
  \/ (exists body, css_first parser "body" = Some body
                   /\ String.length (text_strip body) < 200)
  \/ ((exists ind, In ind spa_fingerprints
                   /\ contains ind (html parser) = true)
      /\ (exists sel elem, In sel root_containers
                           /\ css_first parser sel = Some elem
                           /\ String.length (text_strip elem) < 100)).

(** The sections [mk n x0; mk (n+1) x1; ...] built from the elements that
    a tier keeps. *)
Fixpoint numbered {X} (mk : nat -> X -> PageSection.t) (n : nat)
  (l : list X) : list PageSection.t :=
  match l with
  | [] => []
  | x :: rest => mk n x :: numbered mk (S n) rest
  end.

(** The filter of the first tier, on the element. *)
Definition keeps_semantic (elem : Node) : bool :=
  truthy (strip (text_strip elem)).

(** The filter of the second tier, on the element. *)
Definition keeps_div (elem : Node) : bool :=
  (50 <? String.length (text_strip elem))%nat.

(** What the first tier looks at: every match of every semantic selector,
    with its selector, in the order of the two loops. *)
Definition semantic_candidates (parser : Node) : list (string * Node) :=
  flat_map (fun selector => map (pair selector) (css parser selector))
    semantic_selectors.

Definition kept_semantic (parser : Node) : list (string * Node) :=
  filter (fun c => keeps_semantic (snd c)) (semantic_candidates parser).

Definition kept_divs (parser : Node) : list Node :=
  filter keeps_div (firstn 10 (css parser "body > div")).

Definition parse_candidate (source_url : string) (i : nat)
  (c : string * Node) : PageSection.t :=
  _parse_section (snd c) i (fst c) source_url.

Definition parse_div (source_url : string) (i : nat) (elem : Node)
  : PageSection.t :=
  _parse_section elem i "section" source_url.

End SpecSide.



(** [m] takes every state to one that [R] relates to it, whether it
    returns or raises. *)
Definition preserves {S A} (R : S -> S -> Prop) (m : M S A) : Prop :=
  forall s, R s (snd (m s)).

(** [new] continues [old]: no entry is removed, and no duplicate comes
    in. *)
Definition extends (old new : list string) : Prop :=
  exists extra, new = old ++ extra /\ (NoDup old -> NoDup new).

Definition pages_kept `{PW : Playwright} (r r' : Render) : Prop :=
  extends (visited_pages (self r)) (visited_pages (self r')).

Definition engine_pages_kept (s s' : ScraperEngine) : Prop :=
  extends (visited_pages s) (visited_pages s').

(** ** Sample documents and pages for the closed examples *)

Module Samples.





(** A single-page application shell: an empty mount point. *)
Definition spa_shell : string :=
  ("<html><head><title>App</title></head><body><div id=" ++ quoted "root"
   ++ "></div></body></html>")%string.

(** The page the browser shows for it once rendered. *)
Definition rendered : string :=
  "<html><head><title>App</title></head><body><main>Forty thousand records, one table at a time</main></body></html>".

Definition load_more : string :=
  ("button:has-text(" ++ quoted "Load more" ++ ")")%string.

Definition next_link : string := ("a:has-text(" ++ quoted "Next" ++ ")")%string.

(** A rendered page with one load-more button that a click removes and a
    next link that leads to a second page, a third, and back to the
    second. *)
Definition session : SimBrowser.page :=
  SimBrowser.mkPage "about:blank" rendered
    [(load_more, 1); (next_link, 1)] [load_more]
    [(next_link, ["http://shop.example/p2"; "http://shop.example/p3";
                  "http://shop.example/p2"])]
    [].

(** A static page: a paragraph of 500 characters, no fingerprint. *)
Definition static_page : string :=
  ("<html><head><title>Notes</title></head><body><p>"
   ++ String.concat "" (repeat "0123456789" 50)
   ++ "</p></body></html>")%string.

(** A table of two rows and three cells. *)
Definition table_page : string :=
  "<html><head></head><body><section><table><tr><td>a</td><td>b</td><td>c</td></tr><tr><td>d</td><td>e</td><td>f</td></tr></table></section></body></html>".

Definition browser : Playwright := SimPlaywright (Return session).

(** The state in which the interaction methods start on [session]. *)
Definition start : @Render browser :=
  @mkRender browser (__init__ "http://shop.example/") session "about:blank"
    false.

(** A host that refuses the connection. *)
Definition unreachable : Httpx :=
  FixedHttpx (Raise (Exception "All connection attempts failed")).

(** A host that serves the application shell. *)
Definition spa_site : Httpx := FixedHttpx (Return spa_shell).

Definition clock : Clock := FixedClock "2024-01-01T00:00:00+00:00".

End Samples.

(** ** Further definitions on the side of the proofs *)

(** The types [_determine_section_type] can answer. *)
Definition classified_types : list string :=
  ["hero"; "nav"; "footer"; "pricing"; "faq"; "grid"; "section"].

(** The phase tags of the [Error] records main.py builds. *)
Definition phases : list string := ["fetch"; "detection"; "render"; "scrape"].

(** [m] returns from every state: no exception leaves it. *)
Definition returns {S A} (m : M S A) : Prop :=
  forall s, exists a, fst (m s) = Return a.

(** The measure [f] does not shrink and grows by [n] at most. *)
Definition within {S} (f : S -> nat) (n : nat) (s s' : S) : Prop :=
  f s <= f s' /\ f s' <= f s + n.

(** An engine relation, on the states of the interaction methods. *)
Definition on_engine `{PW : Playwright}
  (RE : ScraperEngine -> ScraperEngine -> Prop) (r r' : Render) : Prop :=
  RE (self r) (self r').

(** The errors grow at their end, by records whose phase is in [tags]. *)
Definition errors_grow (tags : list string) (s s' : ScraperEngine) : Prop :=
  exists extra, errors s' = errors s ++ extra
                /\ Forall (fun er => In (Error.phase er) tags) extra.

(** Clicks are added at the end, the scroll counter does not go down. *)
Definition interactions_grow (s s' : ScraperEngine) : Prop :=
  (exists extra, clicks_performed s' = clicks_performed s ++ extra)
  /\ scroll_count s <= scroll_count s'.

(** The record [scrape] adds when it switches to rendering. *)
Definition detection_note : Error.t :=
  Error.mk "Static content insufficient, using JS rendering" "detection".

(** More sample documents and sessions *)

Module MoreSamples.


(** A page with a framework attribute but no mount point, and a long
    text. *)
Definition reactroot_page : string :=
  ("<html><head></head><body><div data-reactroot=" ++ quoted "1" ++ "><p>"
   ++ String.concat "" (repeat "0123456789" 30)
   ++ "</p></div></body></html>")%string.


(** A session whose navigation fails. *)
Definition broken_browser : Playwright := {|
  Page := SimBrowser.page;
  ElementHandle := SimBrowser.handle;
  launch := Return Samples.session;
  goto := fun _ _ p => (Raise (Exception "net::ERR_NAME_NOT_RESOLVED"), p);
  wait_for_timeout := fun _ => SimBrowser.idle;
  wait_for_load_state := fun _ _ => SimBrowser.idle;
  evaluate := fun _ => SimBrowser.idle;
  query_selector := SimBrowser.query_selector;
  query_selector_all := SimBrowser.query_selector_all;
  click := SimBrowser.click;
  page_url := SimBrowser.sim_url;
  content := SimBrowser.content;
  browser_close := SimBrowser.idle
|}.

(** No browser can be launched. *)
Definition no_browser : Playwright :=
  SimPlaywright (Raise (Exception "Executable does not exist")).





End MoreSamples.

(** * Properties *)

(** ** Strings *)

Lemma truthy_true_iff (s : string) : truthy s = true <-> s <> "".
Proof.
  unfold truthy. destruct (String.eqb_spec s ""); simpl; split; congruence.
Qed.

Lemma take_length_le (n : nat) (s : string) :
  n <= String.length s -> String.length (take n s) = n.
Proof.
  revert s. induction n as [|n IH]; intros s Hn.
  - destruct s; reflexivity.
  - destruct s as [|c r]; simpl in *; [lia|].
    rewrite IH by lia. reflexivity.
Qed.

Lemma take_drop (n : nat) (s : string) : (take n s ++ drop n s)%string = s.
Proof.
  revert s. induction n as [|n IH]; intros s.
  - destruct s; reflexivity.
  - destruct s as [|c r]; simpl; [reflexivity|]. now rewrite IH.
Qed.

Arguments take : simpl never.
Arguments drop : simpl never.

(** ** Loops that append *)


Section ExtractionFacts.

Context `{DQ : DomQuery} `{UL : Urllib}.

Lemma parse_section_type elem i tag u :
  PageSection.type (_parse_section elem i tag u)
  = _determine_section_type tag (extract_headings elem) (text_strip elem).
Proof.
  unfold _parse_section.
  destruct (1000 <? String.length (html elem))%nat; reflexivity.
Qed.

Lemma parse_section_label elem i tag u :
  PageSection.label (_parse_section elem i tag u)
  = _generate_label (extract_headings elem) (text_strip elem)
      (_determine_section_type tag (extract_headings elem) (text_strip elem)).
Proof.
  unfold _parse_section.
  destruct (1000 <? String.length (html elem))%nat; reflexivity.
Qed.


Lemma parse_section_content elem i tag u :
  PageSection.content (_parse_section elem i tag u)
  = SectionContent.mk (extract_headings elem) (text_strip elem)
      (extract_links elem u) (extract_images elem u)
      (extract_lists elem) (extract_tables elem).
Proof.
  unfold _parse_section.
  destruct (1000 <? String.length (html elem))%nat; reflexivity.
Qed.

Lemma parse_section_truncated elem i tag u :
  PageSection.truncated (_parse_section elem i tag u)
  = (1000 <? String.length (html elem))%nat.
Proof.
  unfold _parse_section.
  destruct (1000 <? String.length (html elem))%nat; reflexivity.
Qed.

Lemma parse_section_rawHtml elem i tag u :
  PageSection.rawHtml (_parse_section elem i tag u)
  = if (1000 <? String.length (html elem))%nat
    then (take 1000 (html elem) ++ "...")%string else html elem.
Proof.
  unfold _parse_section.
  destruct (1000 <? String.length (html elem))%nat; reflexivity.
Qed.

(** C2. For every section that [_parse_section] builds, [truncated] is
    true exactly when the markup [elem.html] of the candidate is longer
    than 1000 characters; then [rawHtml] is the first 1000 characters of
    that markup followed by the marker of three dots, and otherwise
    [rawHtml] is the markup itself. *)
Theorem parse_section_truncation elem i tag u :
  let s := _parse_section elem i tag u in
  (PageSection.truncated s = true <-> 1000 < String.length (html elem))
  /\ (PageSection.truncated s = true ->
      PageSection.rawHtml s = (take 1000 (html elem) ++ "...")%string
      /\ String.length (take 1000 (html elem)) = 1000
      /\ (take 1000 (html elem) ++ drop 1000 (html elem))%string = html elem)
  /\ (PageSection.truncated s = false -> PageSection.rawHtml s = html elem).
Proof.
  cbv zeta. rewrite parse_section_truncated, parse_section_rawHtml.
  destruct (Nat.ltb_spec 1000 (String.length (html elem))) as [Hlt|Hge].
  - split; [tauto|]. split; [|discriminate].
    intros _. split; [reflexivity|]. split.
    + apply take_length_le. lia.
    + apply take_drop.
  - split; [split; [discriminate|lia]|].
    split; [discriminate|reflexivity].
Qed.

(** C8. Classification and labeling are functions of the tag name, the
    headings and the flattened text alone: running the classifier again
    on the content a section records gives the section's type and label
    back, and two sections parsed under one tag name from elements with
    the same headings and text have the same type and label, whatever
    their index, source URL, links, images and markup. *)
Theorem classification_idempotent elem i tag u :
  let s := _parse_section elem i tag u in
  let c := PageSection.content s in
  _determine_section_type tag (SectionContent.headings c)
    (SectionContent.text c) = PageSection.type s
  /\ _generate_label (SectionContent.headings c) (SectionContent.text c)
       (PageSection.type s) = PageSection.label s
  /\ forall elem' i' u',
       extract_headings elem' = extract_headings elem ->
       text_strip elem' = text_strip elem ->
       let s' := _parse_section elem' i' tag u' in
       PageSection.type s' = PageSection.type s
       /\ PageSection.label s' = PageSection.label s.
Proof.
  cbv zeta. rewrite parse_section_content, parse_section_type,
    parse_section_label. simpl.
  split; [reflexivity|]. split; [reflexivity|].
  intros elem' i' u' Hh Ht.
  rewrite parse_section_type, parse_section_label, Hh, Ht. now split.
Qed.

(** ** The rendering heuristic *)

Lemma empty_container_iff parser sels :
  empty_container parser sels = true <->
  exists sel elem, In sel sels /\ css_first parser sel = Some elem
                   /\ String.length (text_strip elem) < 100.
Proof.
  induction sels as [|sel sels IH]; simpl.
  - split; [discriminate|]. intros (s & e & [] & _).
  - destruct (css_first parser sel) as [elem|] eqn:Hsel.
    + destruct (Nat.ltb_spec (String.length (text_strip elem)) 100) as [Hlt|Hge].
      * split; [|reflexivity]. intros _. exists sel, elem. auto.
      * rewrite IH. split.
        -- intros (s & e & Hin & He & Hl). exists s, e. auto.
        -- intros (s & e & [Heq|Hin] & He & Hl).
           ++ subst s. rewrite Hsel in He. injection He as <-. lia.
           ++ exists s, e. auto.
    + rewrite IH. split.
      * intros (s & e & Hin & He & Hl). exists s, e. auto.
      * intros (s & e & [Heq|Hin] & He & Hl).
        -- subst s. congruence.
        -- exists s, e. auto.
Qed.

Lemma indicators_are_fingerprints : indicators = spa_fingerprints.
Proof. reflexivity. Qed.

(** C3. [_needs_js_rendering] answers true exactly when the rule of the
    specification holds: the document has no body; or the stripped text
    of the body is shorter than 200 characters; or the markup contains one
    of the five fingerprints and one of [#root], [#__next], [#app] exists
    with stripped text shorter than 100 characters.  The conditions are
    tried in this order and the first that holds decides. *)
Theorem needs_js_rendering_rule parser :
  _needs_js_rendering parser = true <-> needs_rendering_rule parser.
Proof.
  unfold _needs_js_rendering, needs_rendering_rule.
  rewrite <- indicators_are_fingerprints.
  destruct (css_first parser "body") as [body|] eqn:Hbody.
  - destruct (Nat.ltb_spec (String.length (text_strip body)) 200) as [Hlt|Hge].
    + split; [|reflexivity]. intros _. right. left. exists body. auto.
    + destruct (any (fun ind => contains ind (html parser)) indicators)
        eqn:Hany.
      * destruct (empty_container parser ["#root"; "#__next"; "#app"])
          eqn:Hcont.
        -- split; [|reflexivity]. intros _. right. right. split.
           ++ apply existsb_exists in Hany. exact Hany.
           ++ apply empty_container_iff. exact Hcont.
        -- split; [discriminate|].
           intros [H|[(b & Hb & Hl)|(_ & Hc)]].
           ++ discriminate.
           ++ injection Hb as <-. lia.
           ++ apply empty_container_iff in Hc. unfold root_containers in Hc.
              congruence.
      * split; [discriminate|].
        intros [H|[(b & Hb & Hl)|(Hi & _)]].
        -- discriminate.
        -- injection Hb as <-. lia.
        -- apply existsb_exists in Hi. unfold any in Hany. congruence.
  - split; [|reflexivity]. intros _. left. reflexivity.
Qed.

(** ** The three tiers of extraction *)

Lemma numbered_app {X} (mk : nat -> X -> PageSection.t) n (a b : list X) :
  numbered mk n (a ++ b) = numbered mk n a ++ numbered mk (n + length a) b.
Proof.
  revert n. induction a as [|x a IH]; intros n; simpl.
  - now rewrite Nat.add_0_r.
  - rewrite IH. now rewrite Nat.add_succ_comm.
Qed.


Lemma numbered_map {X Y} (mk : nat -> Y -> PageSection.t) (f : X -> Y) n l :
  numbered mk n (map f l) = numbered (fun i x => mk i (f x)) n l.
Proof.
  revert n. induction l as [|x l IH]; intros n; simpl; [|rewrite IH]; auto.
Qed.

(** A loop that numbers what it keeps. *)
Lemma fold_left_numbered {X} (step : list PageSection.t * nat -> X ->
                                     list PageSection.t * nat)
  (keep : X -> bool) (mk : nat -> X -> PageSection.t) :
  (forall secs id x,
     step (secs, id) x
     = if keep x then (secs ++ [mk id x], S id) else (secs, id)) ->
  forall l secs n,
    fold_left step l (secs, n)
    = (secs ++ numbered mk n (filter keep l), n + length (filter keep l)).
Proof.
  intros Hstep. induction l as [|x l IH]; intros secs n; simpl.
  - now rewrite app_nil_r, Nat.add_0_r.
  - rewrite Hstep. destruct (keep x); simpl.
    + rewrite IH, <- app_assoc. simpl. f_equal. lia.
    + apply IH.
Qed.

Lemma semantic_step_eq selector u secs id elem :
  semantic_step selector u (secs, id) elem
  = if keeps_semantic elem
    then (secs ++ [parse_candidate u id (selector, elem)], S id)
    else (secs, id).
Proof.
  unfold semantic_step, keeps_semantic, parse_candidate.
  now rewrite parse_section_content.
Qed.

Lemma div_step_eq u secs id elem :
  div_step u (secs, id) elem
  = if keeps_div elem then (secs ++ [parse_div u id elem], S id)
    else (secs, id).
Proof.
  unfold div_step, keeps_div, parse_div.
  now rewrite parse_section_content.
Qed.

Lemma filter_map_pair (selector : string) (l : list Node) :
  filter (fun c : string * Node => keeps_semantic (snd c))
    (map (pair selector) l)
  = map (pair selector) (filter keeps_semantic l).
Proof.
  induction l as [|x l IH]; simpl; [reflexivity|].
  destruct (keeps_semantic x); simpl; now rewrite IH.
Qed.

Lemma semantic_loops parser u sels secs n :
  fold_left
    (fun st selector =>
       fold_left (semantic_step selector u) (css parser selector) st)
    sels (secs, n)
  = let kept :=
      filter (fun c => keeps_semantic (snd c))
        (flat_map (fun selector => map (pair selector) (css parser selector))
           sels) in
    (secs ++ numbered (parse_candidate u) n kept, n + length kept).
Proof.
  revert secs n. induction sels as [|sel sels IH]; intros secs n; simpl.
  - now rewrite app_nil_r, Nat.add_0_r.
  - rewrite (fold_left_numbered (semantic_step sel u) keeps_semantic
               (fun i e => parse_candidate u i (sel, e))
               (semantic_step_eq sel u)).
    rewrite IH. cbv zeta. rewrite filter_app, filter_map_pair.
    rewrite numbered_app, numbered_map, length_app, !length_map.
    rewrite <- app_assoc. f_equal. lia.
Qed.

Lemma semantic_tier_eq parser u :
  semantic_tier parser u
  = (numbered (parse_candidate u) 0 (kept_semantic parser),
     length (kept_semantic parser)).
Proof.
  unfold semantic_tier. rewrite semantic_loops. reflexivity.
Qed.

Lemma div_tier_eq parser u :
  div_tier parser u (semantic_tier parser u)
  = match kept_semantic parser with
    | [] => (numbered (parse_div u) 0 (kept_divs parser),
             length (kept_divs parser))
    | _ :: _ => semantic_tier parser u
    end.
Proof.
  rewrite semantic_tier_eq. unfold div_tier.
  destruct (kept_semantic parser) as [|c kept]; simpl; [|reflexivity].
  rewrite (fold_left_numbered (div_step u) keeps_div (parse_div u)
             (div_step_eq u)).
  reflexivity.
Qed.

(** [_extract_sections], tier by tier. *)
Lemma extract_sections_cases parser u :
  _extract_sections parser u
  = match kept_semantic parser with
    | _ :: _ => numbered (parse_candidate u) 0 (kept_semantic parser)
    | [] =>
        match kept_divs parser with
        | _ :: _ => numbered (parse_div u) 0 (kept_divs parser)
        | [] =>
            match css_first parser "body" with
            | Some body => [_parse_section body 0 "section" u]
            | None => [_create_empty_section u]
            end
        end
    end.
Proof.
  unfold _extract_sections. rewrite div_tier_eq, semantic_tier_eq.
  destruct (kept_semantic parser) as [|c kept]; simpl; [|reflexivity].
  destruct (kept_divs parser) as [|d divs]; simpl; [|reflexivity].
  destruct (css_first parser "body"); reflexivity.
Qed.

Lemma numbered_nil_inv {X} (mk : nat -> X -> PageSection.t) n l :
  numbered mk n l = [] -> l = [].
Proof. destruct l; [reflexivity|discriminate]. Qed.


Lemma extract_sections_nonempty parser u : _extract_sections parser u <> [].
Proof.
  rewrite extract_sections_cases.
  destruct (kept_semantic parser); [|discriminate].
  destruct (kept_divs parser); [|discriminate].
  destruct (css_first parser "body"); discriminate.
Qed.

(** ** Section identifiers *)












(** ** Scenario C and the identifiers of a result *)


(** ** Links and images *)





Lemma numbered_in {X} (mk : nat -> X -> PageSection.t) n (l : list X) s :
  In s (numbered mk n l) -> exists k x, In x l /\ s = mk k x.
Proof.
  revert n. induction l as [|x l IH]; intros n; simpl; [intros []|].
  intros [<-|H].
  - exists n, x. auto.
  - apply IH in H as (k & y & Hy & ->). exists k, y. auto.
Qed.


End ExtractionFacts.






(** ** Reasoning on computations *)

Section Preservation.

Context {S : Type} (R : S -> S -> Prop).
Hypothesis R_refl : forall s, R s s.
Hypothesis R_trans : forall a b c, R a b -> R b c -> R a c.

Lemma preserves_ret {A} (a : A) : preserves R (ret a).
Proof. intros s. apply R_refl. Qed.

Lemma preserves_raise {A} (e : exn) : preserves R (@raise S A e).
Proof. intros s. apply R_refl. Qed.

Lemma preserves_get : preserves R get.
Proof. intros s. apply R_refl. Qed.

Lemma preserves_bind {A B} (m : M S A) (k : A -> M S B) :
  preserves R m -> (forall a, preserves R (k a)) -> preserves R (bind m k).
Proof.
  intros Hm Hk s. unfold bind. specialize (Hm s).
  destruct (m s) as [[a|e] s']; simpl in *.
  - eapply R_trans; [exact Hm|apply Hk].
  - exact Hm.
Qed.

(** After [get], the continuation runs in the state it was given. *)
Lemma preserves_bind_get {B} (k : S -> M S B) :
  (forall s, R s (snd (k s s))) -> preserves R (bind get k).
Proof. intros Hk s. apply Hk. Qed.

Lemma preserves_try_except {A} (m : M S A) (handler : exn -> M S A) :
  preserves R m -> (forall e, preserves R (handler e)) ->
  preserves R (try_except m handler).
Proof.
  intros Hm Hh s. unfold try_except. specialize (Hm s).
  destruct (m s) as [[a|e] s']; simpl in *.
  - exact Hm.
  - eapply R_trans; [exact Hm|apply Hh].
Qed.

Lemma preserves_try_pass (m : M S unit) : preserves R m -> preserves R (try_pass m).
Proof.
  intros Hm. apply preserves_try_except; [exact Hm|].
  intros e. apply preserves_ret.
Qed.

Lemma preserves_for_each {A} (l : list A) (body : A -> M S unit) :
  (forall x, preserves R (body x)) -> preserves R (for_each l body).
Proof.
  intros Hb. induction l as [|x l IH]; simpl.
  - apply preserves_ret.
  - apply preserves_bind; [apply Hb|]. intros _. exact IH.
Qed.

Lemma preserves_for_break {A} (l : list A) (body : A -> M S bool) :
  (forall x, preserves R (body x)) -> preserves R (for_break l body).
Proof.
  intros Hb. induction l as [|x l IH]; simpl.
  - apply preserves_ret.
  - apply preserves_bind; [apply Hb|]. intros [|]; [apply preserves_ret|].
    exact IH.
Qed.

Lemma preserves_modify (f : S -> S) :
  (forall s, R s (f s)) -> preserves R (modify f).
Proof. intros Hf s. apply Hf. Qed.

End Preservation.

(** ** The pages a scrape visits *)

Lemma extends_refl l : extends l l.
Proof. exists []. now rewrite app_nil_r. Qed.

Lemma extends_trans a b c : extends a b -> extends b c -> extends a c.
Proof.
  intros (x & -> & Hx) (y & -> & Hy). exists (x ++ y).
  rewrite app_assoc. auto.
Qed.

Lemma str_in_iff x l : str_in x l = true <-> In x l.
Proof.
  unfold str_in. rewrite existsb_exists. split.
  - intros (y & Hy & Heq). apply String.eqb_eq in Heq. now subst.
  - intros H. exists x. split; [exact H|apply String.eqb_refl].
Qed.

Lemma extends_append l x : str_in x l = false -> extends l (l ++ [x]).
Proof.
  intros Hx. exists [x]. split; [reflexivity|]. intros Hnd.
  apply NoDup_app; [exact Hnd|repeat constructor; intros []|].
  intros y Hy [<-|[]]. apply str_in_iff in Hy. congruence.
Qed.

Section InteractionFacts.

Context `{PW : Playwright}.

Lemma pages_kept_refl r : pages_kept r r.
Proof. apply extends_refl. Qed.

Lemma pages_kept_trans a b c :
  pages_kept a b -> pages_kept b c -> pages_kept a c.
Proof. apply extends_trans. Qed.

Lemma on_page_self {A} (op : Page -> outcome A * Page) r :
  self (snd (on_page op r)) = self r
  /\ current_url (snd (on_page op r)) = current_url r
  /\ pagination_attempted (snd (on_page op r)) = pagination_attempted r.
Proof. unfold on_page. destruct (op (page r)); auto. Qed.

Lemma on_page_pages {A} (op : Page -> outcome A * Page) :
  preserves pages_kept (on_page op).
Proof.
  intros r. unfold pages_kept.
  destruct (on_page_self op r) as (-> & _). apply extends_refl.
Qed.

Lemma on_self_pages (f : ScraperEngine -> ScraperEngine) :
  (forall s, visited_pages (f s) = visited_pages s) ->
  preserves pages_kept (on_self f).
Proof.
  intros Hf r. unfold pages_kept. simpl. rewrite Hf. apply extends_refl.
Qed.

Lemma set_current_url_pages v : preserves pages_kept (set_current_url v).
Proof. intros r. apply extends_refl. Qed.

Lemma set_pagination_attempted_pages v :
  preserves pages_kept (set_pagination_attempted v).
Proof. intros r. apply extends_refl. Qed.

Ltac pages_side :=
  try exact pages_kept_refl; try exact pages_kept_trans; intros.

Ltac pages_step :=
  first
    [ apply preserves_ret
    | apply preserves_raise
    | apply preserves_get
    | apply on_page_pages
    | apply set_current_url_pages
    | apply set_pagination_attempted_pages
    | apply on_self_pages; reflexivity
    | apply preserves_try_pass
    | apply preserves_try_except
    | apply preserves_for_each
    | apply preserves_for_break
    | apply preserves_bind ];
  pages_side.

Lemma remove_noise_pages : preserves pages_kept _remove_noise.
Proof. unfold _remove_noise. repeat pages_step. Qed.

Lemma click_tabs_pages selector tabs i :
  preserves pages_kept (click_tabs selector i tabs).
Proof.
  revert i. induction tabs as [|tab tabs IH]; intros i; simpl.
  - pages_step.
  - pages_step; [repeat pages_step|]. apply IH.
Qed.

Lemma perform_clicks_pages : preserves pages_kept _perform_clicks.
Proof.
  unfold _perform_clicks, click_tab_controls, click_load_more,
    load_more_attempts, load_more_attempt.
  repeat first
    [ apply click_tabs_pages
    | match goal with
      | |- preserves _ (if ?c then _ else _) => destruct c
      | |- preserves _ (match ?b with Some _ => _ | None => _ end) =>
          destruct b
      end
    | pages_step ].
Qed.

(** One pass through the [try] block of the pagination loop appends at
    most one URL, a new one. *)
Lemma try_next_link_pages selector r :
  let r' := snd (try_next_link selector r) in
  visited_pages (self r') = visited_pages (self r)
  \/ exists new_url,
       visited_pages (self r') = visited_pages (self r) ++ [new_url]
       /\ new_url <> current_url r
       /\ ~ In new_url (visited_pages (self r)).
Proof.
  unfold try_next_link, bind, on_page, get, ret.
  destruct (query_selector selector (page r)) as [[[l|]|e] p1]; cbn;
    [|auto|auto].
  destruct (click l 3000 p1) as [[[]|e] p2]; cbn; [|auto].
  destruct (wait_for_load_state "networkidle" 5000 p2) as [[[]|e] p3]; cbn;
    [|auto].
  destruct (String.eqb_spec (page_url p3) (current_url r)) as [Heq|Hne];
    cbn; [auto|].
  destruct (str_in (page_url p3) (visited_pages (self r))) eqn:Hin; cbn;
    [auto|].
  assert (Hnew : ~ In (page_url p3) (visited_pages (self r))).
  { rewrite <- str_in_iff. congruence. }
  unfold on_self, set_current_url, set_pagination_attempted, modify; cbn.
  destruct (wait_for_timeout 1000 p3) as [[[]|e] p4]; cbn;
    right; exists (page_url p3); auto.
Qed.

Lemma try_next_link_kept selector :
  preserves pages_kept (try_next_link selector).
Proof.
  intros r. unfold pages_kept.
  destruct (try_next_link_pages selector r) as [->|(u & -> & _ & Hu)].
  - apply extends_refl.
  - apply extends_append. destruct (str_in u (visited_pages (self r))) eqn:H;
      [|reflexivity].
    apply str_in_iff in H. contradiction.
Qed.

Lemma scroll_to_bottom_pages : preserves pages_kept scroll_to_bottom.
Proof. unfold scroll_to_bottom. repeat pages_step. Qed.

Lemma perform_scroll_pagination_pages :
  preserves pages_kept _perform_scroll_pagination.
Proof.
  unfold _perform_scroll_pagination.
  repeat first
    [ apply try_next_link_kept
    | apply scroll_to_bottom_pages
    | match goal with
      | |- preserves _ (if ?c then _ else _) => destruct c
      end
    | pages_step ].
Qed.

Lemma render_pages :
  preserves pages_kept (try_except render_try render_except).
Proof.
  unfold render_try.
  apply preserves_try_except; pages_side.
  - repeat first
      [ apply remove_noise_pages
      | apply perform_clicks_pages
      | apply perform_scroll_pagination_pages
      | pages_step ].
  - unfold render_except. destruct e; repeat pages_step.
Qed.

Lemma fetch_with_playwright_pages (self0 : ScraperEngine) :
  extends (visited_pages self0)
    (visited_pages (snd (_fetch_with_playwright self0))).
Proof.
  unfold _fetch_with_playwright. destruct launch as [p|e].
  - pose proof (render_pages (mkRender self0 p (page_url p) false)) as H.
    unfold pages_kept in H. cbn [self] in H.
    destruct (try_except render_try render_except
                (mkRender self0 p (page_url p) false)) as [o r].
    exact H.
  - apply extends_refl.
Qed.

(** ** The load-more loop *)

Lemma load_more_attempt_cases selector attempt r :
  let res := load_more_attempt selector attempt r in
  (fst res = Return false
   /\ clicks_performed (self (snd res))
      = clicks_performed (self r) ++ [selector])
  \/ (fst res <> Return false
      /\ clicks_performed (self (snd res)) = clicks_performed (self r)).
Proof.
  unfold load_more_attempt, bind, on_page, on_self, modify, ret.
  destruct (query_selector selector (page r)) as [[[b|]|e] p1]; cbn;
    [|right; split; [discriminate|reflexivity]..].
  destruct (click b 2000 p1) as [[[]|e] p2]; cbn;
    [|right; split; [discriminate|reflexivity]].
  destruct (wait_for_timeout 1500 p2) as [[[]|e] p3]; cbn;
    [|right; split; [discriminate|reflexivity]].
  left. auto.
Qed.

Lemma load_more_loop_bound selector (l : list nat) r :
  exists k, k <= length l
    /\ clicks_performed
         (self (snd (for_break l (load_more_attempt selector) r)))
       = clicks_performed (self r) ++ repeat selector k.
Proof.
  revert r. induction l as [|attempt l IH]; intros r.
  - exists 0. simpl. now rewrite app_nil_r.
  - cbn [for_break]. unfold bind at 1.
    destruct (load_more_attempt_cases selector attempt r) as [[Ho Hc]|[Ho Hc]].
    + destruct (load_more_attempt selector attempt r) as [o r1].
      cbn [fst snd] in *. subst o.
      destruct (IH r1) as (k & Hk & Hk'). exists (S k). split; [simpl; lia|].
      rewrite Hk', Hc, <- app_assoc. reflexivity.
    + destruct (load_more_attempt selector attempt r) as [o r1].
      cbn [fst snd] in *. exists 0. split; [lia|].
      rewrite app_nil_r.
      destruct o as [[|]|e]; cbn; [exact Hc|now elim Ho|exact Hc].
Qed.

Lemma try_pass_state {S} (m : M S unit) s :
  snd (try_pass m s) = snd (m s).
Proof.
  unfold try_pass, try_except, ret. destruct (m s) as [[a|e] s']; reflexivity.
Qed.

Lemma try_pass_returns {S} (m : M S unit) s :
  fst (try_pass m s) = Return tt.
Proof.
  unfold try_pass, try_except, ret.
  destruct (m s) as [[[]|e] s']; reflexivity.
Qed.

(** The clicks of the patterns [sels], each repeated as its count in
    [ks] says. *)
Lemma load_more_patterns_bound (sels : list string) r :
  exists ks, length ks = length sels
    /\ Forall (fun k => k <= 3) ks
    /\ clicks_performed
         (self (snd (for_each sels
                       (fun selector =>
                          try_pass (load_more_attempts selector)) r)))
       = clicks_performed (self r)
         ++ concat (map (fun sk => repeat (fst sk) (snd sk))
                        (combine sels ks)).
Proof.
  revert r. induction sels as [|sel sels IH]; intros r.
  - exists []. simpl. rewrite app_nil_r. auto.
  - cbn [for_each]. unfold bind at 1.
    pose proof (try_pass_state (load_more_attempts sel) r) as Hs.
    pose proof (try_pass_returns (load_more_attempts sel) r) as Ho.
    destruct (try_pass (load_more_attempts sel) r) as [o r1].
    cbn [fst snd] in *. subst o r1.
    destruct (load_more_loop_bound sel (range 3) r) as (k & Hk & Hc).
    fold (load_more_attempts sel) in Hc.
    destruct (IH (snd (load_more_attempts sel r))) as (ks & Hlen & Hall & Hks).
    exists (k :: ks). split; [simpl; now rewrite Hlen|].
    split; [constructor; [exact Hk|exact Hall]|].
    rewrite Hks, Hc. cbn [combine map concat fst snd].
    now rewrite <- app_assoc.
Qed.

(** C9. In the load-more loop of [_perform_clicks], when the first lookup
    of a pattern finds a button, the click and the wait after it succeed,
    and the second lookup finds nothing, the loop for that pattern records
    exactly one click, the pattern itself, and ends at the state the
    second lookup left.  For every behaviour of the page the loop of one
    pattern records at most 3 clicks, all of them that pattern, and the
    loop over the five patterns records, pattern after pattern, at most 3
    clicks each. *)
Theorem load_more_button_once selector r b p1 p2 p3 p4 :
  query_selector selector (page r) = (Return (Some b), p1) ->
  click b 2000 p1 = (Return tt, p2) ->
  wait_for_timeout 1500 p2 = (Return tt, p3) ->
  query_selector selector p3 = (Return None, p4) ->
  load_more_attempts selector r
  = (Return tt,
     mkRender (clicks_performed_append selector (self r)) p4
       (current_url r) (pagination_attempted r))
  /\ (forall selector' r',
        exists k, k <= 3
          /\ clicks_performed (self (snd (load_more_attempts selector' r')))
             = clicks_performed (self r') ++ repeat selector' k)
  /\ (forall r',
        exists ks, length ks = length load_more_selectors
          /\ Forall (fun k => k <= 3) ks
          /\ clicks_performed (self (snd (click_load_more r')))
             = clicks_performed (self r')
               ++ concat (map (fun sk => repeat (fst sk) (snd sk))
                              (combine load_more_selectors ks))).
Proof.
  intros Hq1 Hclick Hwait Hq2. split; [|split].
  - unfold load_more_attempts, range. cbn [seq for_break].
    unfold bind at 1. unfold load_more_attempt at 1.
    unfold bind, on_page, on_self, modify, ret. cbn.
    rewrite Hq1. cbn. rewrite Hclick. cbn. rewrite Hwait. cbn.
    unfold load_more_attempt, bind, on_page, ret. cbn.
    rewrite Hq2. reflexivity.
  - intros selector' r'. apply (load_more_loop_bound selector' (range 3) r').
  - intros r'. apply load_more_patterns_bound.
Qed.

End InteractionFacts.

(** The single click of scenario E, on the scripted session. *)
Lemma load_more_button_once_witness :
  clicks_performed
    (self (snd (@load_more_attempts Samples.browser Samples.load_more
                  Samples.start)))
  = [Samples.load_more].
Proof.
  pose proof
    (proj1 (@load_more_button_once Samples.browser Samples.load_more
              Samples.start (Samples.load_more, 0) Samples.session
              (snd (SimBrowser.click (Samples.load_more, 0) 2000
                      Samples.session))
              (snd (SimBrowser.click (Samples.load_more, 0) 2000
                      Samples.session))
              (snd (SimBrowser.click (Samples.load_more, 0) 2000
                      Samples.session))
              eq_refl eq_refl eq_refl eq_refl)) as H.
  rewrite H. reflexivity.
Defined.

(** ** The orchestrator *)

Section OrchestratorFacts.

Context `{DQ : DomQuery} `{UL : Urllib} `{HX : Httpx} `{CK : Clock}
        `{PW : Playwright}.

Lemma engine_pages_kept_refl s : engine_pages_kept s s.
Proof. apply extends_refl. Qed.

Lemma engine_pages_kept_trans a b c :
  engine_pages_kept a b -> engine_pages_kept b c -> engine_pages_kept a c.
Proof. apply extends_trans. Qed.

Lemma fetch_static_pages : preserves engine_pages_kept _fetch_static.
Proof.
  unfold _fetch_static.
  apply preserves_try_except; try exact engine_pages_kept_trans.
  - apply preserves_bind_get. intros s. apply extends_refl.
  - intros e. apply preserves_bind; try exact engine_pages_kept_trans.
    + apply preserves_modify. intros s. apply extends_refl.
    + intros _. apply preserves_raise. exact engine_pages_kept_refl.
Qed.

Lemma scrape_try_pages : preserves engine_pages_kept scrape_try.
Proof.
  unfold scrape_try.
  apply preserves_bind; try exact engine_pages_kept_trans.
  { apply fetch_static_pages. }
  intros html_content.
  apply preserves_bind; try exact engine_pages_kept_trans.
  - destruct (_needs_js_rendering (HTMLParser html_content)).
    + apply preserves_bind; try exact engine_pages_kept_trans.
      { apply preserves_modify. intros s. apply extends_refl. }
      intros _. apply preserves_bind; try exact engine_pages_kept_trans.
      { apply preserves_modify. intros s. apply extends_refl. }
      intros _. apply preserves_bind; try exact engine_pages_kept_trans.
      { exact fetch_with_playwright_pages. }
      intros h. apply preserves_ret. exact engine_pages_kept_refl.
    + apply preserves_ret. exact engine_pages_kept_refl.
  - intros parser. apply preserves_bind_get. intros s. apply extends_refl.
Qed.

(** The result of the [try] block is built from the state it ends in. *)
Lemma scrape_try_result self0 result self' :
  scrape_try self0 = (Return result, self') ->
  exists parser : Node,
    result = ScrapeResult.mk (url self') now_isoformat (_extract_meta parser)
               (_extract_sections parser (url self'))
               (build_interactions self') (errors self').
Proof.
  unfold scrape_try. unfold bind at 1.
  destruct (_fetch_static self0) as [[h|e] s1]; [|discriminate].
  unfold bind at 1.
  destruct (_needs_js_rendering (HTMLParser h)).
  - unfold bind at 1. unfold modify at 1. unfold bind at 1.
    unfold modify at 1. unfold bind at 1.
    destruct (_fetch_with_playwright _) as [[h2|e2] s2]; [|discriminate].
    unfold ret at 1. unfold bind, get, ret. intros H. injection H as <- <-.
    eexists. reflexivity.
  - unfold ret at 1. unfold bind, get, ret. intros H. injection H as <- <-.
    eexists. reflexivity.
Qed.

Lemma extract_sections_placeholder (parser : Node) u :
  css_first parser "body" = None ->
  fst (div_tier parser u (semantic_tier parser u)) = [] ->
  _extract_sections parser u = [_create_empty_section u].
Proof.
  intros Hbody Hdiv. rewrite extract_sections_cases.
  rewrite div_tier_eq in Hdiv.
  destruct (kept_semantic parser) as [|c kept] eqn:Hsem.
  - cbn [fst] in Hdiv. apply numbered_nil_inv in Hdiv.
    now rewrite Hdiv, Hbody.
  - rewrite semantic_tier_eq, Hsem in Hdiv. discriminate.
Qed.

(** C1, as amended.  When the [try] block of [scrape] completes, [scrape]
    returns its result, and the sections of that result are not empty;
    when it raises, the partial result has no sections.
    [_extract_sections] never returns the empty list: when no tier keeps
    anything and the document has no body, it returns the single
    placeholder, whose type is [unknown]. *)
Theorem scrape_sections_nonempty self0 result self' :
  scrape_try self0 = (Return result, self') ->
  scrape self0 = (result, self')
  /\ ScrapeResult.sections result <> []
  /\ (forall self1 e s,
        scrape_try self1 = (Raise e, s) ->
        ScrapeResult.sections (fst (scrape self1)) = [])
  /\ (forall (parser : Node) u, _extract_sections parser u <> [])
  /\ (forall (parser : Node) u,
        css_first parser "body" = None ->
        fst (div_tier parser u (semantic_tier parser u)) = [] ->
        _extract_sections parser u = [_create_empty_section u]
        /\ PageSection.type (_create_empty_section u) = "unknown").
Proof.
  intros Htry. split; [|split; [|split; [|split]]].
  - unfold scrape. now rewrite Htry.
  - apply scrape_try_result in Htry as (parser & ->). cbn.
    apply extract_sections_nonempty.
  - intros self1 e s H. unfold scrape. now rewrite H.
  - intros parser u. apply extract_sections_nonempty.
  - intros parser u Hb Hd. split; [|reflexivity].
    now apply extract_sections_placeholder.
Qed.

(** C5. When the static fetch raises, [scrape] on a fresh engine does not
    raise: it returns the partial result, with no sections, the default
    meta (empty title and description, language [en], no canonical), the
    interactions of the fresh engine, and an [errors] list that holds one
    record of phase [fetch] with the message of the exception, followed
    by the record of phase [scrape] that the handler of [scrape] adds. *)
Theorem fetch_failure_partial u e :
  client_get u = Raise e ->
  let result := fst (scrape (__init__ u)) in
  ScrapeResult.url result = u
  /\ ScrapeResult.sections result = []
  /\ Meta.title (ScrapeResult.meta result) = ""
  /\ ScrapeResult.meta result = Meta.mk "" "" "en" None
  /\ ScrapeResult.interactions result = Interactions.mk [] 0 [u]
  /\ ScrapeResult.errors result
     = [Error.mk (str e) "fetch"; Error.mk (str e) "scrape"]
  /\ filter (fun er => Error.phase er =? "fetch")
       (ScrapeResult.errors result)
     = [Error.mk (str e) "fetch"].
Proof.
  intros Hget. unfold scrape, scrape_try. unfold bind at 1.
  unfold _fetch_static, try_except, bind, get, modify, raise. cbn.
  rewrite Hget. cbn. repeat split; reflexivity.
Qed.

(** C6.  In the result of every scrape of a fresh engine,
    [interactions.pages] starts with the requested URL and has no
    duplicates.  From any engine state, a scrape only adds to the end of
    [visited_pages], and keeps it free of duplicates; one pass of the
    pagination [try] block appends at most one URL, and only one that
    differs from the current URL and was not visited. *)
Theorem pages_start_no_duplicates u :
  let result := fst (scrape (__init__ u)) in
  hd_error (Interactions.pages (ScrapeResult.interactions result)) = Some u
  /\ NoDup (Interactions.pages (ScrapeResult.interactions result))
  /\ (forall self0,
        extends (visited_pages self0)
          (Interactions.pages
             (ScrapeResult.interactions (fst (scrape self0)))))
  /\ (forall selector r,
        let r' := snd (try_next_link selector r) in
        visited_pages (self r') = visited_pages (self r)
        \/ exists new_url,
             visited_pages (self r') = visited_pages (self r) ++ [new_url]
             /\ new_url <> current_url r
             /\ ~ In new_url (visited_pages (self r))).
Proof.
  assert (Hgen : forall self0,
             extends (visited_pages self0)
               (Interactions.pages
                  (ScrapeResult.interactions (fst (scrape self0))))).
  { intros self0. unfold scrape.
    pose proof (scrape_try_pages self0) as H. unfold engine_pages_kept in H.
    destruct (scrape_try self0) as [[result|e] s] eqn:Htry; cbn [snd] in H.
    - apply scrape_try_result in Htry as (parser & ->). exact H.
    - exact H. }
  cbv zeta. destruct (Hgen (__init__ u)) as (extra & Hp & Hnd).
  cbn [__init__ visited_pages] in Hp, Hnd.
  split; [now rewrite Hp|]. split.
  - apply Hnd. repeat constructor. intros [].
  - split; [exact Hgen|]. intros selector r. apply try_next_link_pages.
Qed.

End OrchestratorFacts.

(** A scrape whose static fetch fails returns a result without sections. *)
Lemma unreachable_host_counterexample :
  ScrapeResult.sections
    (fst (@scrape TreeDomQuery UrlModelJoin Samples.unreachable Samples.clock
            Samples.browser (__init__ "http://unreachable.example/")))
  = [].
Proof. reflexivity. Qed.

(** A scrape of an application shell, rendered by the scripted session:
    its [try] block completes and the result has a section. *)
Lemma scrape_sections_nonempty_witness :
  ScrapeResult.sections
    (fst (@scrape TreeDomQuery UrlModelJoin Samples.spa_site Samples.clock
            Samples.browser (__init__ "http://shop.example/")))
  <> [].
Proof.
  destruct (@scrape_try TreeDomQuery UrlModelJoin Samples.spa_site
              Samples.clock Samples.browser (__init__ "http://shop.example/"))
    as [[result|e] self'] eqn:Htry.
  - destruct (@scrape_sections_nonempty TreeDomQuery UrlModelJoin
                Samples.spa_site Samples.clock Samples.browser
                (__init__ "http://shop.example/") result self' Htry)
      as (Hscrape & Hsections & _).
    rewrite Hscrape. exact Hsections.
  - vm_compute in Htry. discriminate Htry.
Defined.

(** The partial result for a host that refuses the connection. *)
Lemma fetch_failure_partial_witness :
  ScrapeResult.errors
    (fst (@scrape TreeDomQuery UrlModelJoin Samples.unreachable Samples.clock
            Samples.browser (__init__ "http://unreachable.example/")))
  = [Error.mk "All connection attempts failed" "fetch";
     Error.mk "All connection attempts failed" "scrape"].
Proof.
  apply (@fetch_failure_partial TreeDomQuery UrlModelJoin Samples.unreachable
           Samples.clock Samples.browser "http://unreachable.example/"
           (Exception "All connection attempts failed")).
  reflexivity.
Defined.

(** ** Scenarios of the specification, evaluated *)

(** Scenario A: a static page with 500 characters of text stays static,
    and no error is recorded. *)
Example scenario_static_page :
  _needs_js_rendering (HTMLParser Samples.static_page) = false
  /\ ScrapeResult.errors
       (fst (@scrape TreeDomQuery UrlModelJoin
               (FixedHttpx (Return Samples.static_page)) Samples.clock
               Samples.browser (__init__ "http://shop.example/")))
     = [].
Proof. split; vm_compute; reflexivity. Qed.

(** Scenario B: the application shell needs rendering; the switch is
    recorded with phase [detection], and the session adds one click and
    two pages. *)
Example scenario_spa_shell :
  let result :=
    fst (@scrape TreeDomQuery UrlModelJoin Samples.spa_site Samples.clock
           Samples.browser (__init__ "http://shop.example/")) in
  _needs_js_rendering (HTMLParser Samples.spa_shell) = true
  /\ map Error.phase (ScrapeResult.errors result) = ["detection"]
  /\ ScrapeResult.interactions result
     = Interactions.mk [Samples.load_more] 0
         ["http://shop.example/"; "http://shop.example/p2";
          "http://shop.example/p3"]
  /\ map PageSection.id (ScrapeResult.sections result) = ["section-0"].
Proof. cbv zeta. repeat split; vm_compute; reflexivity. Qed.

(** Scenario F: a table of two rows and three cells. *)
Example scenario_table :
  map (fun s => SectionContent.tables (PageSection.content s))
    (_extract_sections (HTMLParser Samples.table_page) "http://shop.example/")
  = [[[["a"; "b"; "c"]; ["d"; "e"; "f"]]]].
Proof. vm_compute. reflexivity. Qed.

(** * Further properties of the engine *)

(** ** What a parsed section looks like *)

Lemma string_length_append (a b : string) :
  String.length (a ++ b) = String.length a + String.length b.
Proof. induction a as [|c a IH]; simpl; [reflexivity|now rewrite IH]. Qed.

Lemma take_length_bound (n : nat) (s : string) : String.length (take n s) <= n.
Proof.
  revert s. induction n as [|n IH]; intros s.
  - destruct s; simpl; lia.
  - destruct s as [|c r]; [simpl; lia|].
    change (take (S n) (String c r)) with (String c (take n r)).
    simpl. specialize (IH r). lia.
Qed.

Lemma split_from_nonempty (s cur : string) :
  Forall (fun w => w <> "") (split_from cur s).
Proof.
  revert cur. induction s as [|c s IH]; intros cur; simpl.
  - destruct (String.eqb_spec cur ""); [constructor|].
    constructor; [assumption|constructor].
  - destruct (isspace c).
    + destruct (String.eqb_spec cur ""); [apply IH|].
      constructor; [assumption|apply IH].
    + apply IH.
Qed.

Lemma join_nonempty (sep w : string) (ws : list string) :
  w <> "" -> join sep (w :: ws) <> "".
Proof.
  intros Hw. destruct ws as [|w' ws]; simpl; [exact Hw|].
  destruct w; [contradiction|discriminate].
Qed.

Lemma append_nonempty (a b : string) : a <> "" -> (a ++ b)%string <> "".
Proof. destruct a; [contradiction|discriminate]. Qed.

Lemma title_from_length (b : bool) (s : string) :
  String.length (title_from b s) = String.length s.
Proof.
  revert b. induction s as [|c s IH]; intros b; simpl; [reflexivity|].
  destruct (is_upper c || is_lower c); simpl; now rewrite IH.
Qed.

Lemma title_nonempty (s : string) : s <> "" -> title s <> "".
Proof.
  intros Hs Ht. apply (f_equal String.length) in Ht.
  unfold title in Ht. rewrite title_from_length in Ht.
  destruct s; [contradiction|discriminate].
Qed.

Lemma determine_section_type_classified tag hs text :
  In (_determine_section_type tag hs text) classified_types.
Proof.
  unfold _determine_section_type, classified_types.
  repeat match goal with
         | |- context [if ?c then _ else _] => destruct c
         end; simpl; auto 10.
Qed.

(** A loop that keeps its accumulator or adds one element with [P], keeps
    [Forall P]. *)
Lemma fold_left_Forall {A B} (P : B -> Prop) (step : list B -> A -> list B) :
  (forall acc x, step acc x = acc
                 \/ exists y, step acc x = acc ++ [y] /\ P y) ->
  forall l acc, Forall P acc -> Forall P (fold_left step l acc).
Proof.
  intros Hstep. induction l as [|x l IH]; intros acc Hacc; simpl.
  - exact Hacc.
  - apply IH. destruct (Hstep acc x) as [->|(y & -> & Hy)]; [exact Hacc|].
    apply Forall_app. split; [exact Hacc|]. constructor; [exact Hy|constructor].
Qed.

Section SectionShape.

Context `{DQ : DomQuery} `{UL : Urllib}.

Lemma extract_headings_nonempty elem :
  Forall (fun h => h <> "") (extract_headings elem).
Proof.
  unfold extract_headings. apply fold_left_Forall; [|constructor].
  intros acc h. destruct (truthy (text_strip h)) eqn:Ht; [|now left].
  right. exists (text_strip h). split; [reflexivity|].
  now apply truthy_true_iff.
Qed.

Lemma extract_lists_nonempty elem :
  Forall (fun items => items <> []) (extract_lists elem).
Proof.
  unfold extract_lists. apply fold_left_Forall; [|constructor].
  intros acc ul. destruct (map text_strip (css ul "li")) as [|i items];
    [now left|].
  right. eexists. split; [reflexivity|discriminate].
Qed.

Lemma extract_tables_nonempty elem :
  Forall (fun table => table <> [] /\ Forall (fun row => row <> []) table)
    (extract_tables elem).
Proof.
  unfold extract_tables. apply fold_left_Forall; [|constructor].
  intros acc table.
  match goal with
  | |- context [match ?t with [] => _ | _ :: _ => _ end] =>
      assert (Hrows : Forall (fun row : list string => row <> []) t);
      [|destruct t as [|row rows]; [now left|]]
  end.
  - apply fold_left_Forall; [|constructor].
    intros data row. destruct (map text_strip (css row "td, th"));
      [now left|].
    right. eexists. split; [reflexivity|discriminate].
  - right. eexists. split; [reflexivity|]. split; [discriminate|exact Hrows].
Qed.

(** X1. The [rawHtml] of a parsed section is never longer than 1003
    characters: the markup itself when that has at most 1000 characters,
    and exactly 1003 characters when the section is truncated. *)
Theorem raw_html_bounded elem i tag u :
  let s := _parse_section elem i tag u in
  String.length (PageSection.rawHtml s) <= 1003
  /\ (PageSection.truncated s = true ->
      String.length (PageSection.rawHtml s) = 1003)
  /\ (PageSection.truncated s = false ->
      String.length (PageSection.rawHtml s) <= 1000).
Proof.
  cbv zeta. rewrite parse_section_truncated, parse_section_rawHtml.
  destruct (Nat.ltb_spec 1000 (String.length (html elem))) as [Hlt|Hge].
  - rewrite string_length_append, take_length_le by lia. simpl.
    split; [lia|]. split; [intros _; lia|discriminate].
  - split; [lia|]. split; [discriminate|intros _; lia].
Qed.

(** X2. Every parsed section has a label: the first heading, which is
    not empty, or the first words of the text, or else the title-cased
    type.  The label is never the empty string. *)
Theorem section_label_nonempty elem i tag u :
  PageSection.label (_parse_section elem i tag u) <> "".
Proof.
  rewrite parse_section_label. unfold _generate_label.
  pose proof (extract_headings_nonempty elem) as Hh.
  destruct (extract_headings elem) as [|h0 hs].
  - pose proof (split_from_nonempty (text_strip elem) "") as Hw.
    fold (split (text_strip elem)) in Hw.
    destruct (split (text_strip elem)) as [|w ws] eqn:Hsplit.
    + cbn [firstn]. apply title_nonempty.
      pose proof (determine_section_type_classified tag [] (text_strip elem))
        as Hin.
      intros Heq. rewrite Heq in Hin. unfold classified_types in Hin.
      simpl in Hin. intuition discriminate.
    + change (firstn 7 (w :: ws)) with (w :: firstn 6 ws).
      inversion Hw as [|? ? Hne _]; subst.
      destruct (7 <? length (w :: ws))%nat.
      * apply append_nonempty. now apply join_nonempty.
      * now apply join_nonempty.
  - now inversion Hh.
Qed.

(** X4. The content of a parsed section holds no empty heading, no empty
    list, no empty table and no empty table row. *)
Theorem section_content_nonempty_parts elem i tag u :
  let c := PageSection.content (_parse_section elem i tag u) in
  Forall (fun h => h <> "") (SectionContent.headings c)
  /\ Forall (fun items => items <> []) (SectionContent.lists c)
  /\ Forall (fun table => table <> []
                          /\ Forall (fun row => row <> []) table)
       (SectionContent.tables c).
Proof.
  cbv zeta. rewrite parse_section_content. cbn.
  split; [apply extract_headings_nonempty|].
  split; [apply extract_lists_nonempty|apply extract_tables_nonempty].
Qed.

Lemma parse_section_sourceUrl elem i tag u :
  PageSection.sourceUrl (_parse_section elem i tag u) = u.
Proof.
  unfold _parse_section.
  destruct (1000 <? String.length (html elem))%nat; reflexivity.
Qed.

(** The sections of a result, one tier at a time. *)
Lemma extract_sections_in parser u s :
  In s (_extract_sections parser u) ->
  (exists k elem tag, s = _parse_section elem k tag u)
  \/ (s = _create_empty_section u
      /\ _extract_sections parser u = [_create_empty_section u]
      /\ css_first parser "body" = None).
Proof.
  rewrite extract_sections_cases.
  destruct (kept_semantic parser) as [|c kept].
  - destruct (kept_divs parser) as [|d divs].
    + destruct (css_first parser "body") as [body|].
      * intros [<-|[]]. left. eauto.
      * intros [<-|[]]. right. auto.
    + intros H. apply numbered_in in H as (k & e & _ & ->). left.
      unfold parse_div. eauto.
  - intros H. apply numbered_in in H as (k & e & _ & ->). left.
    unfold parse_candidate. eauto.
Qed.

(** X3. Every section of a result has one of the seven classified types,
    except the placeholder: a section whose type is [unknown] is the
    placeholder, it is then the only section, and the document has no
    body. *)
Theorem section_types_classified parser u s :
  In s (_extract_sections parser u) ->
  (In (PageSection.type s) classified_types
   /\ PageSection.type s <> "unknown")
  \/ (s = _create_empty_section u
      /\ _extract_sections parser u = [s]
      /\ css_first parser "body" = None).
Proof.
  intros H. apply extract_sections_in in H
    as [(k & elem & tag & ->)|(-> & Hres & Hbody)].
  - left. rewrite parse_section_type.
    pose proof (determine_section_type_classified tag
                  (extract_headings elem) (text_strip elem)) as Hin.
    split; [exact Hin|]. intros Heq. rewrite Heq in Hin.
    unfold classified_types in Hin. simpl in Hin. intuition discriminate.
  - right. auto.
Qed.

Lemma firstn_length_le {A} (n : nat) (l : list A) : length (firstn n l) <= n.
Proof. rewrite length_firstn. lia. Qed.




End SectionShape.


(** The placeholder, for a document without a body. *)
Lemma section_types_classified_witness :
  PageSection.type (_create_empty_section "http://shop.example/") = "unknown"
  /\ @_extract_sections TreeDomQuery UrlModelJoin
       (TreeDom.Element "html" [] []) "http://shop.example/"
     = [_create_empty_section "http://shop.example/"].
Proof.
  destruct (@section_types_classified TreeDomQuery UrlModelJoin
              (TreeDom.Element "html" [] []) "http://shop.example/"
              (_create_empty_section "http://shop.example/")
              (or_introl eq_refl))
    as [[_ Hne]|(_ & Hres & _)].
  - now elim Hne.
  - split; [reflexivity|exact Hres].
Defined.

(** ** Steps that never raise *)

Section Returning.

Context {S : Type}.

Lemma returns_ret {A} (a : A) : returns (@ret S A a).
Proof. intros s. exists a. reflexivity. Qed.

Lemma returns_get : returns (@get S).
Proof. intros s. exists s. reflexivity. Qed.

Lemma returns_modify (f : S -> S) : returns (modify f).
Proof. intros s. exists tt. reflexivity. Qed.

Lemma returns_bind {A B} (m : M S A) (k : A -> M S B) :
  returns m -> (forall a, returns (k a)) -> returns (bind m k).
Proof.
  intros Hm Hk s. unfold bind. destruct (Hm s) as (a & Ha).
  destruct (m s) as [o s']. cbn in Ha. subst o. apply Hk.
Qed.

(** A handler that returns makes the whole [try] statement return. *)
Lemma returns_try_except {A} (m : M S A) (handler : exn -> M S A) :
  (forall e, returns (handler e)) -> returns (try_except m handler).
Proof.
  intros Hh s. unfold try_except. destruct (m s) as [[a|e] s'].
  - exists a. reflexivity.
  - apply Hh.
Qed.

Lemma returns_try_pass (m : M S unit) : returns (try_pass m).
Proof. apply returns_try_except. intros e. apply returns_ret. Qed.

Lemma returns_for_each {A} (l : list A) (body : A -> M S unit) :
  (forall x, returns (body x)) -> returns (for_each l body).
Proof.
  intros Hb. induction l as [|x l IH]; simpl.
  - apply returns_ret.
  - apply returns_bind; [apply Hb|]. intros _. exact IH.
Qed.

Lemma returns_for_break {A} (l : list A) (body : A -> M S bool) :
  (forall x, returns (body x)) -> returns (for_break l body).
Proof.
  intros Hb. induction l as [|x l IH]; simpl.
  - apply returns_ret.
  - apply returns_bind; [apply Hb|]. intros [|]; [apply returns_ret|exact IH].
Qed.

Lemma returns_unit (m : M S unit) s : returns m -> fst (m s) = Return tt.
Proof. intros Hm. destruct (Hm s) as ([] & H). exact H. Qed.

End Returning.

Section InteractionReturns.

Context `{PW : Playwright}.

Ltac returns_step :=
  first
    [ apply returns_ret
    | apply returns_get
    | apply returns_modify
    | apply returns_try_pass
    | apply returns_try_except; intros
    | apply returns_for_each; intros
    | apply returns_for_break; intros
    | apply returns_bind; [|intros] ].

Lemma remove_noise_returns : returns _remove_noise.
Proof. unfold _remove_noise. repeat returns_step. Qed.

Lemma click_tabs_returns selector i tabs :
  returns (click_tabs selector i tabs).
Proof.
  revert i. induction tabs as [|tab tabs IH]; intros i; simpl.
  - apply returns_ret.
  - apply returns_bind; [apply returns_try_pass|]. intros _. apply IH.
Qed.

Lemma perform_clicks_returns : returns _perform_clicks.
Proof.
  unfold _perform_clicks, click_tab_controls, click_load_more.
  repeat returns_step.
Qed.

Lemma scroll_to_bottom_returns : returns scroll_to_bottom.
Proof. unfold scroll_to_bottom. repeat returns_step. Qed.

Lemma perform_scroll_pagination_returns : returns _perform_scroll_pagination.
Proof.
  unfold _perform_scroll_pagination, set_current_url,
    set_pagination_attempted.
  repeat first
    [ apply scroll_to_bottom_returns
    | match goal with
      | |- returns (if ?c then _ else _) => destruct c
      end
    | returns_step ].
Qed.

Lemma on_page_engine {A} (op : Page -> outcome A * Page) r :
  self (snd (on_page op r)) = self r.
Proof. unfold on_page. destruct (op (page r)); reflexivity. Qed.

Lemma remove_noise_engine r : self (snd (_remove_noise r)) = self r.
Proof.
  unfold _remove_noise. generalize noise_selectors. intros l. revert r.
  induction l as [|sel l IH]; intros r; [reflexivity|].
  cbn [for_each]. unfold bind at 1.
  pose proof (try_pass_state (on_page (evaluate (remove_script sel))) r) as Hs.
  pose proof (try_pass_returns (on_page (evaluate (remove_script sel))) r)
    as Ho.
  destruct (try_pass (on_page (evaluate (remove_script sel))) r) as [o r1].
  cbn [fst snd] in *. subst o r1. rewrite IH. apply on_page_engine.
Qed.

(** X7. Noise removal, click exploration and scroll pagination never
    raise, whatever the page does to their calls: each of them returns
    normally from every state.  Noise removal also leaves the engine as
    it was. *)
Theorem interaction_steps_never_raise r :
  fst (_remove_noise r) = Return tt
  /\ self (snd (_remove_noise r)) = self r
  /\ fst (_perform_clicks r) = Return tt
  /\ fst (_perform_scroll_pagination r) = Return tt.
Proof.
  split; [apply returns_unit, remove_noise_returns|].
  split; [apply remove_noise_engine|].
  split; [apply returns_unit, perform_clicks_returns|].
  apply returns_unit, perform_scroll_pagination_returns.
Qed.

End InteractionReturns.

(** ** Relations that every step of a scrape keeps *)

Section RenderRelations.

Context `{PW : Playwright}.

Variable RE : ScraperEngine -> ScraperEngine -> Prop.
Hypothesis RE_refl : forall s, RE s s.
Hypothesis RE_trans : forall a b c, RE a b -> RE b c -> RE a c.
Hypothesis RE_click : forall c s, RE s (clicks_performed_append c s).
Hypothesis RE_scroll : forall s, RE s (scroll_count_incr s).
Hypothesis RE_visit : forall u s, RE s (visited_pages_append u s).
Hypothesis RE_render :
  forall msg s, RE s (errors_append (Error.mk msg "render") s).

Lemma on_engine_refl r : on_engine RE r r.
Proof. apply RE_refl. Qed.

Lemma on_engine_trans a b c :
  on_engine RE a b -> on_engine RE b c -> on_engine RE a c.
Proof. apply RE_trans. Qed.

Lemma on_page_kept {A} (op : Page -> outcome A * Page) :
  preserves (on_engine RE) (on_page op).
Proof.
  intros r. unfold on_engine. rewrite on_page_engine. apply RE_refl.
Qed.

Lemma on_self_kept (f : ScraperEngine -> ScraperEngine) :
  (forall s, RE s (f s)) -> preserves (on_engine RE) (on_self f).
Proof. intros Hf r. apply Hf. Qed.

Lemma set_current_url_kept v : preserves (on_engine RE) (set_current_url v).
Proof. intros r. apply RE_refl. Qed.

Lemma set_pagination_attempted_kept v :
  preserves (on_engine RE) (set_pagination_attempted v).
Proof. intros r. apply RE_refl. Qed.

Ltac kept_side :=
  try exact on_engine_refl; try exact on_engine_trans; intros.

Ltac kept_step :=
  first
    [ apply preserves_ret
    | apply preserves_raise
    | apply preserves_get
    | apply on_page_kept
    | apply set_current_url_kept
    | apply set_pagination_attempted_kept
    | apply on_self_kept; solve [ apply RE_click | apply RE_scroll
                                | apply RE_visit | apply RE_render ]
    | apply preserves_try_pass
    | apply preserves_try_except
    | apply preserves_for_each
    | apply preserves_for_break
    | apply preserves_bind
    | match goal with
      | |- preserves _ (if ?c then _ else _) => destruct c
      | |- preserves _ (match ?b with Some _ => _ | None => _ end) =>
          destruct b
      | |- preserves _ (match ?e with PlaywrightTimeout _ => _
                                     | Exception _ => _ end) => destruct e
      end ];
  kept_side.

Lemma remove_noise_kept : preserves (on_engine RE) _remove_noise.
Proof. unfold _remove_noise. repeat kept_step. Qed.

Lemma click_tabs_kept selector tabs i :
  preserves (on_engine RE) (click_tabs selector i tabs).
Proof.
  revert i. induction tabs as [|tab tabs IH]; intros i; simpl.
  - kept_step.
  - kept_step; [repeat kept_step|]. apply IH.
Qed.

Lemma perform_clicks_kept : preserves (on_engine RE) _perform_clicks.
Proof.
  unfold _perform_clicks, click_tab_controls, click_load_more,
    load_more_attempts, load_more_attempt.
  repeat first [ apply click_tabs_kept | kept_step ].
Qed.

Lemma perform_scroll_pagination_kept :
  preserves (on_engine RE) _perform_scroll_pagination.
Proof.
  unfold _perform_scroll_pagination, scroll_to_bottom, try_next_link.
  repeat kept_step.
Qed.

Lemma render_kept :
  preserves (on_engine RE) (try_except render_try render_except).
Proof.
  unfold render_try, render_except.
  repeat first
    [ apply remove_noise_kept
    | apply perform_clicks_kept
    | apply perform_scroll_pagination_kept
    | kept_step ].
Qed.

Lemma fetch_with_playwright_kept (self0 : ScraperEngine) :
  RE self0 (snd (_fetch_with_playwright self0)).
Proof.
  unfold _fetch_with_playwright. destruct launch as [p|e].
  - pose proof (render_kept (mkRender self0 p (page_url p) false)) as H.
    unfold on_engine in H. cbn [self] in H.
    destruct (try_except render_try render_except
                (mkRender self0 p (page_url p) false)) as [o r].
    exact H.
  - apply RE_refl.
Qed.

End RenderRelations.

Section ScrapeRelations.

Context `{DQ : DomQuery} `{UL : Urllib} `{HX : Httpx} `{CK : Clock}
        `{PW : Playwright}.

Variable RE : ScraperEngine -> ScraperEngine -> Prop.
Hypothesis RE_refl : forall s, RE s s.
Hypothesis RE_trans : forall a b c, RE a b -> RE b c -> RE a c.
Hypothesis RE_click : forall c s, RE s (clicks_performed_append c s).
Hypothesis RE_scroll : forall s, RE s (scroll_count_incr s).
Hypothesis RE_visit : forall u s, RE s (visited_pages_append u s).
Hypothesis RE_render :
  forall msg s, RE s (errors_append (Error.mk msg "render") s).
Hypothesis RE_fetch :
  forall msg s, RE s (errors_append (Error.mk msg "fetch") s).
Hypothesis RE_detection :
  forall msg s, RE s (errors_append (Error.mk msg "detection") s).
Hypothesis RE_strategy : forall v s, RE s (set_strategy v s).

Lemma fetch_static_kept : preserves RE _fetch_static.
Proof.
  unfold _fetch_static.
  apply preserves_try_except; try exact RE_trans.
  - apply preserves_bind_get. intros s. apply RE_refl.
  - intros e. apply preserves_bind; try exact RE_trans.
    + apply preserves_modify. intros s. apply RE_fetch.
    + intros _. apply preserves_raise. exact RE_refl.
Qed.

(** The [try] block of [scrape] keeps every relation that its mutations
    keep, whether it returns or raises. *)
Lemma scrape_try_kept : preserves RE scrape_try.
Proof.
  unfold scrape_try.
  apply preserves_bind; try exact RE_trans.
  { apply fetch_static_kept. }
  intros html_content.
  apply preserves_bind; try exact RE_trans.
  - destruct (_needs_js_rendering (HTMLParser html_content)).
    + apply preserves_bind; try exact RE_trans.
      { apply preserves_modify. intros s. apply RE_strategy. }
      intros _. apply preserves_bind; try exact RE_trans.
      { apply preserves_modify. intros s. apply RE_detection. }
      intros _. apply preserves_bind; try exact RE_trans.
      { intros s. apply fetch_with_playwright_kept; assumption. }
      intros h. apply preserves_ret. exact RE_refl.
    + apply preserves_ret. exact RE_refl.
  - intros parser. apply preserves_bind_get. intros s. apply RE_refl.
Qed.

End ScrapeRelations.

(** ** What a scrape keeps *)

Lemma errors_grow_refl tags s : errors_grow tags s s.
Proof. exists []. rewrite app_nil_r. split; [reflexivity|constructor]. Qed.

Lemma errors_grow_trans tags a b c :
  errors_grow tags a b -> errors_grow tags b c -> errors_grow tags a c.
Proof.
  intros (x & Hx & Px) (y & Hy & Py). exists (x ++ y).
  rewrite Hy, Hx, app_assoc. split; [reflexivity|].
  apply Forall_app. auto.
Qed.

Lemma errors_grow_same tags s s' : errors s' = errors s -> errors_grow tags s s'.
Proof.
  intros H. exists []. rewrite app_nil_r. split; [exact H|constructor].
Qed.

Lemma errors_grow_append tags msg ph s :
  In ph tags -> errors_grow tags s (errors_append (Error.mk msg ph) s).
Proof.
  intros Hin. exists [Error.mk msg ph]. split; [reflexivity|].
  constructor; [exact Hin|constructor].
Qed.

Lemma interactions_grow_refl s : interactions_grow s s.
Proof. split; [exists []; now rewrite app_nil_r|lia]. Qed.

Lemma interactions_grow_trans a b c :
  interactions_grow a b -> interactions_grow b c -> interactions_grow a c.
Proof.
  intros [(x & Hx) Hs] [(y & Hy) Hs']. split; [|lia].
  exists (x ++ y). now rewrite Hy, Hx, app_assoc.
Qed.

Lemma interactions_grow_same s s' :
  clicks_performed s' = clicks_performed s ->
  scroll_count s' = scroll_count s -> interactions_grow s s'.
Proof.
  intros Hc Hs. split; [exists []; now rewrite app_nil_r|lia].
Qed.

Section ScrapeKeeps.

Context `{DQ : DomQuery} `{UL : Urllib} `{HX : Httpx} `{CK : Clock}
        `{PW : Playwright}.

Lemma scrape_try_url self0 :
  url (snd (scrape_try self0)) = url self0.
Proof.
  apply (scrape_try_kept (fun s s' => url s' = url s)); intros;
    first [ reflexivity | congruence ].
Qed.

Lemma scrape_try_errors self0 :
  errors_grow ["fetch"; "detection"; "render"] self0 (snd (scrape_try self0)).
Proof.
  apply (scrape_try_kept (errors_grow ["fetch"; "detection"; "render"]));
    intros;
    first [ apply errors_grow_same; reflexivity
          | eapply errors_grow_trans; eassumption
          | apply errors_grow_append; simpl; auto ].
Qed.

Lemma scrape_try_interactions self0 :
  interactions_grow self0 (snd (scrape_try self0)).
Proof.
  apply (scrape_try_kept interactions_grow); intros;
    first [ apply interactions_grow_same; reflexivity
          | eapply interactions_grow_trans; eassumption
          | split; [eexists; reflexivity|simpl; lia]
          | split; [exists []; simpl; now rewrite app_nil_r|simpl; lia] ].
Qed.

(** The result of [scrape], from the outcome of its [try] block. *)
Lemma scrape_cases self0 :
  (exists (parser : Node) self',
      scrape_try self0 = (Return (fst (scrape self0)), self')
      /\ fst (scrape self0)
         = ScrapeResult.mk (url self') now_isoformat (_extract_meta parser)
             (_extract_sections parser (url self'))
             (build_interactions self') (errors self'))
  \/ (exists e self',
        scrape_try self0 = (Raise e, self')
        /\ fst (scrape self0)
           = partial_result (errors_append (Error.mk (str e) "scrape") self')).
Proof.
  unfold scrape. destruct (scrape_try self0) as [[result|e] self'] eqn:Htry.
  - left. destruct (scrape_try_result _ Htry) as (parser & Hres).
    exists parser, self'. cbn [fst]. split; [reflexivity|exact Hres].
  - right. exists e, self'. split; reflexivity.
Qed.

(** X5. The [url] of a result is the URL the engine was made for, and
    every section of the result carries that URL as its [sourceUrl]. *)
Theorem result_urls self0 :
  let result := fst (scrape self0) in
  ScrapeResult.url result = url self0
  /\ forall s, In s (ScrapeResult.sections result) ->
               PageSection.sourceUrl s = url self0.
Proof.
  cbv zeta. pose proof (scrape_try_url self0) as Hurl.
  destruct (scrape_cases self0)
    as [(parser & self' & Htry & ->)|(e & self' & Htry & ->)];
    rewrite Htry in Hurl; cbn [snd] in Hurl; cbn.
  - split; [exact Hurl|]. intros s Hs. rewrite Hurl in Hs.
    apply extract_sections_in in Hs
      as [(k & elem & tag & ->)|(-> & _)].
    + apply parse_section_sourceUrl.
    + reflexivity.
  - split; [exact Hurl|]. intros s [].
Qed.

(** X9. A scrape discards nothing the engine had recorded: the errors of
    the result are the engine's errors followed by new records, each with
    one of the four phase tags; the clicks of the result are the engine's
    clicks followed by new ones; the scroll count is at least the
    engine's. *)
Theorem scrape_accumulates self0 :
  let result := fst (scrape self0) in
  (exists extra,
      ScrapeResult.errors result = errors self0 ++ extra
      /\ Forall (fun er => In (Error.phase er) phases) extra)
  /\ (exists extra,
        Interactions.clicks (ScrapeResult.interactions result)
        = clicks_performed self0 ++ extra)
  /\ scroll_count self0
     <= Interactions.scrolls (ScrapeResult.interactions result).
Proof.
  cbv zeta.
  destruct (scrape_try_errors self0) as (extra & Herr & Hph).
  destruct (scrape_try_interactions self0) as [(clicks & Hclicks) Hscroll].
  assert (Hweak : Forall (fun er => In (Error.phase er) phases) extra).
  { eapply Forall_impl; [|exact Hph]. intros er Hin. unfold phases.
    simpl in *. intuition. }
  destruct (scrape_cases self0)
    as [(parser & self' & Htry & ->)|(e & self' & Htry & ->)];
    rewrite Htry in *; cbn [snd] in *; cbn.
  - split; [exists extra; auto|]. split; [exists clicks; auto|exact Hscroll].
  - split; [|split; [exists clicks; auto|exact Hscroll]].
    exists (extra ++ [Error.mk (str e) "scrape"]).
    rewrite Herr, app_assoc. split; [reflexivity|].
    apply Forall_app. split; [exact Hweak|].
    constructor; [unfold phases; simpl; auto|constructor].
Qed.

(** X10. For a fresh engine, the result has no sections exactly when its
    errors hold a record of phase [scrape]: the handler of [scrape] is
    the only place that makes either. *)
Theorem empty_sections_iff_scrape_error u :
  let result := fst (scrape (__init__ u)) in
  ScrapeResult.sections result = []
  <-> In "scrape" (map Error.phase (ScrapeResult.errors result)).
Proof.
  cbv zeta.
  destruct (scrape_try_errors (__init__ u)) as (extra & Herr & Hph).
  cbn [__init__ errors app] in Herr.
  destruct (scrape_cases (__init__ u))
    as [(parser & self' & Htry & ->)|(e & self' & Htry & ->)];
    rewrite Htry in *; cbn [snd] in *; cbn.
  - split.
    + intros H. now apply extract_sections_nonempty in H.
    + intros H. exfalso. rewrite Herr in H. apply in_map_iff in H
        as (er & Hphase & Hin).
      rewrite Forall_forall in Hph. apply Hph in Hin. rewrite Hphase in Hin.
      simpl in Hin. intuition discriminate.
  - split; [|reflexivity]. intros _. rewrite map_app, in_app_iff.
    right. simpl. auto.
Qed.

End ScrapeKeeps.

(** ** How much a scrape can add *)

Section Growth.

Context {S : Type} (f : S -> nat).

Lemma within_refl n s : within f n s s.
Proof. unfold within. lia. Qed.

Lemma within_trans a b s s' s'' :
  within f a s s' -> within f b s' s'' -> within f (a + b) s s''.
Proof. unfold within. lia. Qed.

Lemma within_weaken a b s s' : a <= b -> within f a s s' -> within f b s s'.
Proof. unfold within. lia. Qed.

Lemma grows_weaken {A} a b (m : M S A) :
  a <= b -> preserves (within f a) m -> preserves (within f b) m.
Proof. intros Hab Hm s. eapply within_weaken; [exact Hab|apply Hm]. Qed.

Lemma grows_ret {A} n (a : A) : preserves (within f n) (ret a).
Proof. intros s. apply within_refl. Qed.

Lemma grows_bind {A B} a b (m : M S A) (k : A -> M S B) :
  preserves (within f a) m -> (forall x, preserves (within f b) (k x)) ->
  preserves (within f (a + b)) (bind m k).
Proof.
  intros Hm Hk s. unfold bind. specialize (Hm s).
  destruct (m s) as [[x|e] s']; cbn [snd] in *.
  - eapply within_trans; [exact Hm|apply Hk].
  - eapply within_weaken; [|exact Hm]. lia.
Qed.

Lemma grows_bind_l {A B} a (m : M S A) (k : A -> M S B) :
  preserves (within f a) m -> (forall x, preserves (within f 0) (k x)) ->
  preserves (within f a) (bind m k).
Proof.
  intros Hm Hk. apply (grows_weaken (a := a + 0)); [lia|].
  now apply grows_bind.
Qed.

Lemma grows_try_except {A} a b (m : M S A) (handler : exn -> M S A) :
  preserves (within f a) m -> (forall e, preserves (within f b) (handler e)) ->
  preserves (within f (a + b)) (try_except m handler).
Proof.
  intros Hm Hh s. unfold try_except. specialize (Hm s).
  destruct (m s) as [[x|e] s']; cbn [snd] in *.
  - eapply within_weaken; [|exact Hm]. lia.
  - eapply within_trans; [exact Hm|apply Hh].
Qed.

Lemma grows_try_pass a (m : M S unit) :
  preserves (within f a) m -> preserves (within f a) (try_pass m).
Proof.
  intros Hm s. rewrite try_pass_state. apply Hm.
Qed.

Lemma grows_for_each {A} b (l : list A) (body : A -> M S unit) :
  (forall x, preserves (within f b) (body x)) ->
  preserves (within f (length l * b)) (for_each l body).
Proof.
  intros Hb. induction l as [|x l IH]; cbn [for_each length].
  - apply grows_ret.
  - apply (grows_weaken (a := b + length l * b)); [simpl; lia|].
    apply grows_bind; [apply Hb|]. intros _. exact IH.
Qed.

Lemma grows_for_break {A} b (l : list A) (body : A -> M S bool) :
  (forall x, preserves (within f b) (body x)) ->
  preserves (within f (length l * b)) (for_break l body).
Proof.
  intros Hb. induction l as [|x l IH]; cbn [for_break length].
  - apply grows_ret.
  - apply (grows_weaken (a := b + length l * b)); [simpl; lia|].
    apply grows_bind; [apply Hb|].
    intros [|]; [apply grows_ret|exact IH].
Qed.

(** A loop whose body breaks whenever it made [f] grow adds what one
    pass adds. *)
Lemma grows_for_break_once {A} n (l : list A) (body : A -> M S bool) :
  (forall x s, within f n s (snd (body x s))
               /\ (fst (body x s) = Return false
                   -> f (snd (body x s)) = f s)) ->
  preserves (within f n) (for_break l body).
Proof.
  intros Hb. induction l as [|x l IH]; cbn [for_break].
  - apply grows_ret.
  - intros s. unfold bind. destruct (Hb x s) as [Hw Hsame].
    destruct (body x s) as [[[|]|e] s']; cbn [fst snd] in *;
      try exact Hw.
    specialize (Hsame eq_refl). specialize (IH s').
    unfold within in *. lia.
Qed.

End Growth.

Section InteractionGrowth.

Context `{PW : Playwright}.

(** A measure of the engine, and how much each mutation adds to it. *)
Variable g : ScraperEngine -> nat.
Variables dc ds dv : nat.
Hypothesis g_click :
  forall c s, within g dc s (clicks_performed_append c s).
Hypothesis g_scroll : forall s, within g ds s (scroll_count_incr s).
Hypothesis g_visit : forall u s, within g dv s (visited_pages_append u s).
Hypothesis g_error : forall e s, g (errors_append e s) = g s.

Definition gr (r : Render) : nat := g (self r).

Ltac zero_grow := intros ?s; unfold within, gr; cbn; lia.

Lemma on_page_grows {A} n (op : Page -> outcome A * Page) :
  preserves (within gr n) (on_page op).
Proof.
  intros r. unfold within, gr. rewrite on_page_engine. lia.
Qed.

Lemma on_self_grows n (h : ScraperEngine -> ScraperEngine) :
  (forall s, within g n s (h s)) -> preserves (within gr n) (on_self h).
Proof. intros Hh r. apply Hh. Qed.

Lemma click_tabs_grows selector tabs i :
  preserves (within gr (length tabs * dc)) (click_tabs selector i tabs).
Proof.
  revert i. induction tabs as [|tab tabs IH]; intros i;
    cbn [click_tabs length].
  - apply grows_ret.
  - apply (grows_weaken (f := gr) (a := dc + length tabs * dc));
      [simpl; lia|].
    apply grows_bind; [|intros _; apply IH].
    apply grows_try_pass.
    apply (grows_bind (f := gr) (a := 0) (b := dc)); [apply on_page_grows|]. intros _.
    apply (grows_bind (f := gr) (a := 0) (b := dc)); [apply on_page_grows|]. intros _.
    apply on_self_grows. apply g_click.
Qed.

Lemma click_tab_controls_grows :
  preserves (within gr (3 * dc)) click_tab_controls.
Proof.
  unfold click_tab_controls. apply grows_for_break_once.
  intros selector r. unfold try_except, bind, on_page, ret.
  destruct (query_selector_all selector (page r)) as [[tabs|e] p1];
    cbn [fst snd].
  - destruct (negb (length tabs =? 0)%nat && (1 <? length tabs)%nat).
    + pose proof (click_tabs_grows selector (firstn 3 tabs) 0
                    (mkRender (self r) p1 (current_url r)
                       (pagination_attempted r))) as Hg.
      pose proof (returns_unit
                    (mkRender (self r) p1 (current_url r)
                       (pagination_attempted r))
                    (click_tabs_returns selector 0 (firstn 3 tabs))) as Hr.
      destruct (click_tabs selector 0 (firstn 3 tabs) _) as [o r2].
      cbn [fst snd] in *. subst o. cbn [fst snd]. split; [|discriminate].
      pose proof (firstn_length_le 3 tabs) as Hlen.
      unfold within, gr in Hg |- *. cbn [self] in Hg. nia.
    + cbn [fst snd]. unfold within, gr. cbn [self]. split; [lia|reflexivity].
  - cbn [fst snd]. unfold within, gr. cbn [self]. split; [lia|reflexivity].
Qed.

Lemma load_more_attempt_grows selector attempt :
  preserves (within gr dc) (load_more_attempt selector attempt).
Proof.
  unfold load_more_attempt.
  apply (grows_bind (f := gr) (a := 0) (b := dc)); [apply on_page_grows|]. intros [b|].
  - apply (grows_bind (f := gr) (a := 0) (b := dc)); [apply on_page_grows|]. intros _.
    apply (grows_bind (f := gr) (a := 0) (b := dc)); [apply on_page_grows|]. intros _.
    apply (grows_bind_l (f := gr) (a := dc)); [|intros _; apply grows_ret].
    apply on_self_grows. apply g_click.
  - apply grows_ret.
Qed.

Lemma click_load_more_grows : preserves (within gr (15 * dc)) click_load_more.
Proof.
  unfold click_load_more.
  apply (grows_weaken (f := gr)
           (a := length load_more_selectors * (3 * dc))); [simpl; lia|].
  apply (grows_for_each (f := gr) (b := (3 * dc)) load_more_selectors).
  intros selector. apply grows_try_pass. unfold load_more_attempts.
  apply (grows_weaken (f := gr) (a := length (range 3) * dc));
    [simpl; lia|].
  apply (grows_for_break (f := gr) (b := dc) (range 3)).
  intros attempt. apply load_more_attempt_grows.
Qed.

Lemma perform_clicks_grows : preserves (within gr (18 * dc)) _perform_clicks.
Proof.
  unfold _perform_clicks.
  apply (grows_weaken (f := gr) (a := 3 * dc + 15 * dc)); [lia|].
  apply grows_bind; [apply click_tab_controls_grows|].
  intros _. apply click_load_more_grows.
Qed.

Lemma remove_noise_grows : preserves (within gr 0) _remove_noise.
Proof.
  intros r. unfold within, gr. rewrite remove_noise_engine. lia.
Qed.

Lemma try_next_link_grows selector :
  preserves (within gr dv) (try_next_link selector).
Proof.
  unfold try_next_link.
  apply (grows_bind (f := gr) (a := 0) (b := dv)); [apply on_page_grows|]. intros [l|].
  - apply (grows_bind (f := gr) (a := 0) (b := dv)); [apply on_page_grows|]. intros _.
    apply (grows_bind (f := gr) (a := 0) (b := dv)); [apply on_page_grows|]. intros _.
    apply (grows_bind (f := gr) (a := 0) (b := dv)); [zero_grow|]. intros r.
    apply (grows_bind_l (f := gr) (a := dv)); [|intros _; apply grows_ret].
    destruct (negb (page_url (page r) =? current_url r)
              && negb (str_in (page_url (page r)) (visited_pages (self r)))).
    + apply (grows_bind_l (f := gr) (a := dv));
        [apply on_self_grows; apply g_visit|]. intros _.
      apply (grows_bind (f := gr) (a := 0) (b := 0)); [zero_grow|]. intros _.
      apply (grows_bind (f := gr) (a := 0) (b := 0)); [zero_grow|]. intros _.
      apply on_page_grows.
    + apply grows_ret.
  - apply grows_ret.
Qed.

Lemma scroll_to_bottom_grows : preserves (within gr (3 * ds)) scroll_to_bottom.
Proof.
  unfold scroll_to_bottom.
  apply (grows_weaken (f := gr) (a := length (range 3) * ds));
    [simpl; lia|].
  apply (grows_for_each (f := gr) (b := ds) (range 3)).
  intros i. apply grows_try_pass.
  apply (grows_bind (f := gr) (a := 0) (b := ds)); [apply on_page_grows|]. intros _.
  apply (grows_bind (f := gr) (a := 0) (b := ds)); [apply on_page_grows|]. intros _.
  apply on_self_grows. apply g_scroll.
Qed.

Lemma perform_scroll_pagination_grows :
  preserves (within gr (15 * dv + 3 * ds)) _perform_scroll_pagination.
Proof.
  unfold _perform_scroll_pagination.
  apply (grows_bind (f := gr) (a := 0) (b := (15 * dv + 3 * ds)));
    [zero_grow|]. intros r0.
  apply (grows_bind (f := gr) (a := 0) (b := (15 * dv + 3 * ds)));
    [zero_grow|]. intros _.
  apply (grows_bind (f := gr) (a := 0) (b := (15 * dv + 3 * ds)));
    [zero_grow|]. intros _.
  apply grows_bind.
  - apply (grows_weaken (f := gr) (a := length (range 3) * (5 * dv)));
      [simpl; lia|].
    apply grows_for_break. intros depth.
    apply (grows_bind_l (f := gr) (a := (5 * dv))).
    + apply (grows_weaken (f := gr) (a := length next_selectors * dv));
        [simpl; lia|].
      apply (grows_for_break (f := gr) (b := dv) next_selectors).
      intros selector.
      apply (grows_weaken (f := gr) (a := dv + 0)); [lia|].
      apply grows_try_except; [apply try_next_link_grows|].
      intros e. apply grows_ret.
    + intros _. apply (grows_bind (f := gr) (a := 0) (b := 0)); [zero_grow|].
      intros r. apply grows_ret.
  - intros _. apply (grows_bind (f := gr) (a := 0) (b := (3 * ds))); [zero_grow|].
    intros r.
    destruct (negb (pagination_attempted r)
              || (length (visited_pages (self r)) <? 3)%nat).
    + apply scroll_to_bottom_grows.
    + apply grows_ret.
Qed.

Lemma render_grows :
  preserves (within gr (18 * dc + (15 * dv + 3 * ds)))
    (try_except render_try render_except).
Proof.
  apply (grows_weaken (f := gr)
           (a := (18 * dc + (15 * dv + 3 * ds)) + 0)); [lia|].
  apply grows_try_except.
  - unfold render_try.
    apply (grows_bind (f := gr) (a := 0) (b := _)); [zero_grow|]. intros r.
    apply (grows_bind (f := gr) (a := 0) (b := _)); [apply on_page_grows|]. intros _.
    apply (grows_bind (f := gr) (a := 0) (b := _)); [apply on_page_grows|]. intros _.
    apply (grows_bind (f := gr) (a := 0) (b := _)); [apply remove_noise_grows|]. intros _.
    apply grows_bind; [apply perform_clicks_grows|]. intros _.
    apply (grows_weaken (f := gr) (a := (15 * dv + 3 * ds) + 0)); [lia|].
    apply grows_bind; [apply perform_scroll_pagination_grows|]. intros _.
    apply (grows_bind (f := gr) (a := 0) (b := 0)); [apply on_page_grows|]. intros h.
    apply (grows_bind (f := gr) (a := 0) (b := 0)); [apply on_page_grows|]. intros _.
    apply grows_ret.
  - intros e. unfold render_except. destruct e.
    + apply (grows_bind (f := gr) (a := 0) (b := 0)).
      { apply on_self_grows. intros s. unfold within. rewrite g_error. lia. }
      intros _. apply (grows_bind (f := gr) (a := 0) (b := 0)); [apply on_page_grows|]. intros h.
      apply (grows_bind (f := gr) (a := 0) (b := 0)); [apply on_page_grows|]. intros _.
      apply grows_ret.
    + apply (grows_bind (f := gr) (a := 0) (b := 0)).
      { apply on_self_grows. intros s. unfold within. rewrite g_error. lia. }
      intros _. apply (grows_bind (f := gr) (a := 0) (b := 0)); [apply on_page_grows|]. intros _.
      zero_grow.
Qed.

Lemma fetch_with_playwright_grows (self0 : ScraperEngine) :
  within g (18 * dc + (15 * dv + 3 * ds)) self0
    (snd (_fetch_with_playwright self0)).
Proof.
  unfold _fetch_with_playwright. destruct launch as [p|e].
  - pose proof (render_grows (mkRender self0 p (page_url p) false)) as H.
    unfold within, gr in H. cbn [self] in H.
    destruct (try_except render_try render_except
                (mkRender self0 p (page_url p) false)) as [o r].
    exact H.
  - apply within_refl.
Qed.

End InteractionGrowth.

Section ScrapeGrowth.

Context `{DQ : DomQuery} `{UL : Urllib} `{HX : Httpx} `{CK : Clock}
        `{PW : Playwright}.

Variable g : ScraperEngine -> nat.
Variables dc ds dv : nat.
Hypothesis g_click :
  forall c s, within g dc s (clicks_performed_append c s).
Hypothesis g_scroll : forall s, within g ds s (scroll_count_incr s).
Hypothesis g_visit : forall u s, within g dv s (visited_pages_append u s).
Hypothesis g_error : forall e s, g (errors_append e s) = g s.
Hypothesis g_strategy : forall v s, g (set_strategy v s) = g s.

Lemma fetch_static_grows : preserves (within g 0) _fetch_static.
Proof.
  intros s. unfold _fetch_static, try_except, bind, get, modify, raise.
  destruct (client_get (url s)) as [h|e]; cbn; unfold within;
    try rewrite g_error; lia.
Qed.

Lemma scrape_try_grows :
  preserves (within g (18 * dc + (15 * dv + 3 * ds))) scrape_try.
Proof.
  unfold scrape_try.
  apply (grows_bind (f := g) (a := 0) (b := 18 * dc + (15 * dv + 3 * ds)));
    [apply fetch_static_grows|]. intros h.
  apply grows_bind_l.
  - destruct (_needs_js_rendering (HTMLParser h)); [|apply grows_ret].
    apply (grows_bind (f := g) (a := 0) (b := 18 * dc + (15 * dv + 3 * ds))).
    { intros s. unfold within. cbn. rewrite g_strategy. lia. }
    intros _.
    apply (grows_bind (f := g) (a := 0) (b := 18 * dc + (15 * dv + 3 * ds))).
    { intros s. unfold within. cbn. rewrite g_error. lia. }
    intros _. apply grows_bind_l.
    + intros s. apply fetch_with_playwright_grows; assumption.
    + intros h2. apply grows_ret.
  - intros parser. intros s. unfold within. cbn. lia.
Qed.

End ScrapeGrowth.

Section ScrapeBounds.

Context `{DQ : DomQuery} `{UL : Urllib} `{HX : Httpx} `{CK : Clock}
        `{PW : Playwright}.

Lemma scrape_interactions self0 :
  ScrapeResult.interactions (fst (scrape self0))
  = build_interactions (snd (scrape_try self0)).
Proof.
  destruct (scrape_cases self0)
    as [(parser & self' & Htry & ->)|(e & self' & Htry & ->)];
    rewrite Htry; reflexivity.
Qed.

(** X8. One scrape records at most 18 clicks (3 on tabs, 3 for each of
    the five load-more patterns), scrolls at most 3 times, and adds at
    most 15 pages (one for each of the five next-link patterns in each of
    the three rounds), whatever the page does. *)
Theorem interaction_bounds self0 :
  let i := ScrapeResult.interactions (fst (scrape self0)) in
  length (Interactions.clicks i) <= length (clicks_performed self0) + 18
  /\ Interactions.scrolls i <= scroll_count self0 + 3
  /\ length (Interactions.pages i) <= length (visited_pages self0) + 15.
Proof.
  cbv zeta. rewrite scrape_interactions. cbn.
  split; [|split].
  - assert (H : within (fun s => length (clicks_performed s))
                  (18 * 1 + (15 * 0 + 3 * 0)) self0
                  (snd (scrape_try self0))).
    { apply (scrape_try_grows (g := fun s => length (clicks_performed s))
               (dc := 1) (ds := 0) (dv := 0));
        intros; unfold within; cbn; try rewrite length_app; cbn; lia. }
    unfold within in H. lia.
  - assert (H : within scroll_count (18 * 0 + (15 * 0 + 3 * 1)) self0
                  (snd (scrape_try self0))).
    { apply (scrape_try_grows (g := scroll_count) (dc := 0) (ds := 1) (dv := 0));
        intros; unfold within; cbn; lia. }
    unfold within in H. lia.
  - assert (H : within (fun s => length (visited_pages s))
                  (18 * 0 + (15 * 1 + 3 * 0)) self0
                  (snd (scrape_try self0))).
    { apply (scrape_try_grows (g := fun s => length (visited_pages s))
               (dc := 0) (ds := 0) (dv := 1));
        intros; unfold within; cbn; try rewrite length_app; cbn; lia. }
    unfold within in H. lia.
Qed.

End ScrapeBounds.

(** ** The paths of a scrape *)

Section ScrapePaths.

Context `{DQ : DomQuery} `{UL : Urllib} `{HX : Httpx} `{CK : Clock}
        `{PW : Playwright}.


Lemma scrape_try_js u h :
  client_get u = Return h ->
  _needs_js_rendering (HTMLParser h) = true ->
  scrape_try (__init__ u)
  = bind _fetch_with_playwright
      (fun html_content =>
         self <- get ;;
         ret (ScrapeResult.mk (url self) now_isoformat
                (_extract_meta (HTMLParser html_content))
                (_extract_sections (HTMLParser html_content) (url self))
                (build_interactions self) (errors self)))
      (errors_append detection_note (set_strategy "js" (__init__ u))).
Proof.
  intros Hget Hjs. unfold scrape_try. unfold bind at 1.
  unfold _fetch_static, try_except, bind at 1, get. cbn.
  rewrite Hget. cbn. unfold bind at 1. rewrite Hjs.
  unfold bind at 1, modify at 1. unfold bind at 1, modify at 1.
  unfold bind. cbn.
  destruct (_fetch_with_playwright _) as [[h2|e] s]; reflexivity.
Qed.


(** X13. When the navigation fails with another exception, the scrape
    gives the partial result: no sections, the default meta, and three
    errors, the detection note, a [render] record and a [scrape] record
    that both carry the message of the exception. *)
Theorem navigation_failure u h p msg p1 p2 :
  client_get u = Return h ->
  _needs_js_rendering (HTMLParser h) = true ->
  launch = Return p ->
  goto u 30000 p = (Raise (Exception msg), p1) ->
  browser_close p1 = (Return tt, p2) ->
  fst (scrape (__init__ u))
  = ScrapeResult.mk u now_isoformat (Meta.mk "" "" "en" None) []
      (Interactions.mk [] 0 [u])
      [detection_note; Error.mk msg "render"; Error.mk msg "scrape"].
Proof.
  intros Hget Hjs Hlaunch Hgoto Hclose.
  unfold scrape. rewrite (scrape_try_js _ Hget Hjs).
  unfold bind at 1. unfold _fetch_with_playwright. rewrite Hlaunch.
  unfold try_except, render_try. unfold bind at 1, get at 1.
  unfold bind at 1, on_page at 1. cbn [page self url errors_append
    set_strategy __init__]. rewrite Hgoto.
  unfold render_except. unfold bind at 1, on_self at 1, modify at 1.
  unfold bind at 1, on_page at 1. cbn [page]. rewrite Hclose.
  reflexivity.
Qed.

(** X14. When no browser can be launched, the exception is raised
    outside the [try] block of [_fetch_with_playwright]: the partial
    result holds the detection note and a [scrape] record, and no
    [render] record. *)
Theorem launch_failure u h e :
  client_get u = Return h ->
  _needs_js_rendering (HTMLParser h) = true ->
  launch = Raise e ->
  fst (scrape (__init__ u))
  = ScrapeResult.mk u now_isoformat (Meta.mk "" "" "en" None) []
      (Interactions.mk [] 0 [u])
      [detection_note; Error.mk (str e) "scrape"].
Proof.
  intros Hget Hjs Hlaunch.
  unfold scrape. rewrite (scrape_try_js _ Hget Hjs).
  unfold bind at 1. unfold _fetch_with_playwright. rewrite Hlaunch.
  reflexivity.
Qed.

(** X15. A fingerprint alone does not ask for rendering: when the
    document has a body and none of [#root], [#__next], [#app] exists,
    the heuristic answers by the length of the body text alone, whatever
    the markup contains. *)
Theorem fingerprint_without_container (parser body : Node) :
  css_first parser "body" = Some body ->
  (forall selector, In selector ["#root"; "#__next"; "#app"] ->
                    css_first parser selector = None) ->
  _needs_js_rendering parser
  = (String.length (text_strip body) <? 200)%nat.
Proof.
  intros Hbody Hnone. unfold _needs_js_rendering. rewrite Hbody.
  destruct (String.length (text_strip body) <? 200)%nat; [reflexivity|].
  destruct (any _ indicators); [|reflexivity].
  destruct (empty_container parser ["#root"; "#__next"; "#app"]) eqn:Hc;
    [|reflexivity].
  apply empty_container_iff in Hc as (sel & elem & Hin & Hsel & _).
  rewrite (Hnone sel Hin) in Hsel. discriminate.
Qed.

End ScrapePaths.



(** The application shell, on a session whose navigation fails. *)
Lemma navigation_failure_witness :
  map Error.phase
    (ScrapeResult.errors
       (fst (@scrape TreeDomQuery UrlModelJoin Samples.spa_site Samples.clock
               MoreSamples.broken_browser (__init__ "http://shop.example/"))))
  = ["detection"; "render"; "scrape"].
Proof.
  rewrite (@navigation_failure TreeDomQuery UrlModelJoin Samples.spa_site
             Samples.clock MoreSamples.broken_browser "http://shop.example/"
             Samples.spa_shell Samples.session "net::ERR_NAME_NOT_RESOLVED"
             Samples.session Samples.session
             eq_refl eq_refl eq_refl eq_refl eq_refl).
  reflexivity.
Defined.

(** The application shell, without a browser. *)
Lemma launch_failure_witness :
  map Error.phase
    (ScrapeResult.errors
       (fst (@scrape TreeDomQuery UrlModelJoin Samples.spa_site Samples.clock
               MoreSamples.no_browser (__init__ "http://shop.example/"))))
  = ["detection"; "scrape"].
Proof.
  rewrite (@launch_failure TreeDomQuery UrlModelJoin Samples.spa_site
             Samples.clock MoreSamples.no_browser "http://shop.example/"
             Samples.spa_shell (Exception "Executable does not exist")
             eq_refl eq_refl eq_refl).
  reflexivity.
Defined.

(** A page with [data-reactroot], no mount point and a long text. *)
Lemma fingerprint_without_container_witness :
  contains "data-reactroot" (html (HTMLParser MoreSamples.reactroot_page))
  = true
  /\ _needs_js_rendering (HTMLParser MoreSamples.reactroot_page) = false.
Proof.
  split; [reflexivity|].
  rewrite (@fingerprint_without_container TreeDomQuery
             (HTMLParser MoreSamples.reactroot_page)
             (TreeDom.Element "body" []
                [TreeDom.Element "div" [("data-reactroot", "1")]
                   [TreeDom.Element "p" []
                      [TreeDom.Text
                         (String.concat "" (repeat "0123456789" 30))]]])).
  - reflexivity.
  - reflexivity.
  - intros selector Hin. simpl in Hin.
    repeat (destruct Hin as [<-|Hin]; [reflexivity|]). destruct Hin.
Defined.

(** ** Pages without controls *)

Section QuietPages.

Context `{PW : Playwright}.

(** A property of the page that the calls of the interaction steps keep. *)
Variable P : Page -> Prop.


Section LoneTab.

Hypothesis tabs_kept :
  forall selector p, P p -> P (snd (query_selector_all selector p)).
Hypothesis tabs_few :
  forall selector p tabs,
    P p -> fst (query_selector_all selector p) = Return tabs ->
    length tabs <= 1.



End LoneTab.

Section NoNextLink.

Hypothesis lookup_kept :
  forall selector p, P p -> P (snd (query_selector selector p)).
Hypothesis lookup_none :
  forall selector p, P p -> fst (query_selector selector p) = Return None.
Hypothesis evaluate_kept : forall js p, P p -> P (snd (evaluate js p)).
Hypothesis evaluate_ok : forall js p, P p -> fst (evaluate js p) = Return tt.
Hypothesis wait_kept : forall ms p, P p -> P (snd (wait_for_timeout ms p)).
Hypothesis wait_ok :
  forall ms p, P p -> fst (wait_for_timeout ms p) = Return tt.







End NoNextLink.

End QuietPages.


